(** * vmForks pool: a shallow embedding of
      packages/vitest/src/node/pools/vmForks.ts

    The pool distributes test files over forked worker processes.  The
    development follows the source file top-down: the per-task channel
    ([createChildProcessChannel]), the serializer of pattern values
    ([stringifyRegex]), the pool construction ([createVmForksPool]), the
    per-file task ([runFiles]) with the dispatch function that
    [runWithFiles] returns, and the memory ceiling ([getMemoryLimit]).

    Conventions.
    - JavaScript numbers that hold counts (processing units, worker counts,
      identifiers) are integers and modelled in [Z] / [nat]; numbers that
      hold memory sizes and ratios are modelled as exact rationals [Q]
      (finite values, rounding left out).
    - [undefined] / [null] are [None]; [a ?? b] is [default b a].
    - A literal regular expression without metacharacters, such as
      [/Failed to terminate worker/], tests for a substring.
    - The controller is single threaded: an [async] function runs up to its
      first [await] when it is called, and resumes when the awaited promise
      settles.  The dispatch is therefore a synchronous start phase followed
      by the events the pool delivers, one at a time. *)

From Stdlib Require Import ZArith QArith Lia Ascii.
From stdpp Require Import base list gmap strings.

Local Open Scope Z_scope.

(** ** Strings *)

(** [RegExp.prototype.test] for a pattern made of literal characters. *)
Fixpoint includes (pattern s : string) : bool :=
  match s with
  | EmptyString => String.prefix pattern s
  | String _ rest => String.prefix pattern s || includes pattern rest
  end.

(** [Array.prototype.join]. *)
Definition join (sep : string) (l : list string) : string := String.concat sep l.

(** [s.at(-1)]: the last character, [undefined] on the empty string. *)
Fixpoint at_last (s : string) : option ascii :=
  match s with
  | EmptyString => None
  | String c EmptyString => Some c
  | String _ rest => at_last rest
  end.

(** The string without its last character. *)
Fixpoint drop_last (s : string) : string :=
  match s with
  | EmptyString => EmptyString
  | String _ EmptyString => EmptyString
  | String c rest => String c (drop_last rest)
  end.

Definition percent_sign : ascii := "%"%char.

(** ** Values that cross the process boundary *)

(** A [RegExp] object; [toString] prints [/source/flags]. *)
Record RegExp := { source : string; flags : string }.

Definition RegExp_toString (r : RegExp) : string :=
  "/" +:+ source r +:+ "/" +:+ flags r.

(** The argument type of [stringifyRegex]: [RegExp | string]. *)
Inductive Pattern :=
| PatRegExp (r : RegExp)
| PatString (s : string).

Definition vitest_marker : string := "$$vitest:".

Definition stringifyRegex (input : Pattern) : string :=
  match input with
  | PatString s => s
  | PatRegExp r => vitest_marker +:+ RegExp_toString r
  end.

(** JavaScript truthiness of a [RegExp | string | undefined] value: objects
    are truthy, a string is truthy unless it is empty. *)
Definition truthy_pattern (p : option Pattern) : bool :=
  match p with
  | None => false
  | Some (PatRegExp _) => true
  | Some (PatString s) => negb (String.eqb s EmptyString)
  end.

(** ** Configuration *)

(** The user's memory ceiling: [number | string]. *)
Inductive MemoryLimitSpec :=
| LimitNumber (n : Q)
| LimitString (s : string).

(** [poolOptions.vmForks]. *)
Record VmForksOptions := {
  maxForks : option Z;
  singleFork : option bool;
  vmForks_execArgv : option (list string);
}.

(** [poolOptions.vmForks ?? {}]. *)
Definition no_vmForks_options : VmForksOptions :=
  {| maxForks := None; singleFork := None; vmForks_execArgv := None |}.

(** The fields of the resolved configuration that this file reads.  The
    outer [option] of [poolOptions] is [poolOptions?.], the inner one the
    optional [vmForks] entry. *)
Record ResolvedConfig := {
  watch : bool;
  poolOptions : option (option VmForksOptions);
  maxWorkers : option Z;
  minWorkers : option Z;
  fileParallelism : bool;
  teardownTimeout : Z;
  root : string;
  name : string;
  testNamePattern : option Pattern;
}.

(** The snapshot sent to a worker: [testNamePattern] is a string by then;
    the other fields are copied by the spread. *)
Record SerializedConfig := {
  ser_base : ResolvedConfig;
  ser_testNamePattern : option string;
}.

(** [node:os] as this file uses it.  [availableParallelism] is absent on old
    runtimes; [totalmem] is [None] when it does not answer with a number. *)
Record NodeOs := {
  availableParallelism : option Z;
  cpus_length : Z;
  totalmem : option Q;
}.

(** ** Memory ceiling *)

Definition digit_value (c : ascii) : option Z :=
  let n := Z.of_nat (nat_of_ascii c) in
  if (48 <=? n) && (n <=? 57) then Some (n - 48) else None.

(** Value and number of digits of a run of decimal digits. *)
Fixpoint parse_digits (s : string) (acc : Z) (len : nat) : option (Z * nat) :=
  match s with
  | EmptyString => Some (acc, len)
  | String c rest =>
      match digit_value c with
      | Some d => parse_digits rest (10 * acc + d) (S len)
      | None => None
      end
  end.

Fixpoint split_at_dot (s : string) : string * option string :=
  match s with
  | EmptyString => (EmptyString, None)
  | String c rest =>
      if Ascii.eqb c "."%char then (EmptyString, Some rest)
      else let '(i, f) := split_at_dot rest in (String c i, f)
  end.

(** An unsigned decimal numeral, [digits] or [digits.digits]. *)
Definition parse_decimal (s : string) : option Q :=
  let '(i, f) := split_at_dot s in
  match parse_digits i 0 0 with
  | Some (iv, S _) =>
      match f with
      | None => Some (inject_Z iv)
      | Some fs =>
          match parse_digits fs 0 0 with
          | Some (fv, S k) =>
              Some (inject_Z iv + (fv # Pos.of_nat (10 ^ S k)))%Q
          | _ => None
          end
      end
  | _ => None
  end.

(** Modelled from the spec: [stringToBytes] of [utils/memory-limit], which
    is not part of the sources at hand.  Spec 4.3: a literal byte count is
    used as it is; a ratio at most 1 or a percentage string is multiplied
    against the baseline; without a baseline a value at most 1 and a
    percentage yield no ceiling; a string that is not a percentage is read
    as a number and follows the rule for numbers.  [getMemoryLimit] below
    does not depend on it: it takes the byte conversion as a collaborator,
    and this one is a conversion that behaves as the specification says. *)
Definition numberToBytes (n : Q) (percentageReference : option Q) : option Q :=
  if Qle_bool n 1
  then match percentageReference with
       | Some base => Some (n * base)%Q
       | None => None
       end
  else Some n.

Definition stringToBytes_spec (input : MemoryLimitSpec)
    (percentageReference : option Q) : option Q :=
  match input with
  | LimitNumber n => numberToBytes n percentageReference
  | LimitString s =>
      if bool_decide (at_last s = Some percent_sign)
      then match parse_decimal (drop_last s), percentageReference with
           | Some p, Some base => Some (p / 100 * base)%Q
           | _, _ => None
           end
      else match parse_decimal s with
           | Some n => numberToBytes n percentageReference
           | None => None
           end
  end.

(** ** The pool's view of the outside *)

(** A value a rejected promise carries: an instance of [Error] with its
    [message], or any other thrown value with its textual form. *)
Inductive JsValue :=
| ErrorInstance (message : string)
| NotAnError (text : string).

(** How a promise settles. *)
Inductive Settlement :=
| fulfilled
| rejected (reason : JsValue).

(** [AggregateError] of [utils/base]: the errors and a message. *)
Record AggregateError := {
  errors : list JsValue;
  aggregate_message : string;
}.

(** How a call of the dispatch function ends. *)
Inductive Completion :=
| Resolved
| Threw (e : AggregateError).

(** A workspace project: its identity (the key of the [configs] map), and
    what its methods answer. *)
Record WorkspaceProject := {
  project_key : nat;
  project_config : ResolvedConfig;
  getName : string;
  getSerializableConfig : ResolvedConfig;
  getProvidedContext : string;
}.

(** One element of [Object.values(filesByEnv).flat()]. *)
Record FileUnit := {
  file : string;
  environment : string;
  project : WorkspaceProject;
}.

(** The task description handed to [pool.run]. *)
Record ContextRPC := {
  rpc_pool : string;
  rpc_worker : string;
  rpc_config : SerializedConfig;
  rpc_files : list string;
  rpc_invalidates : list string;
  rpc_environment : string;
  workerId : nat;
  projectName : string;
  providedContext : string;
}.

(** *** Event emitters *)

(** The callbacks that get registered on a channel's emitter: the function
    birpc passes to [on], and the callbacks Tinypool passes to
    [channel.onMessage]. *)
Inductive Listener :=
| RpcReceive
| PoolCallback (k : nat).

(** An [EventEmitter]: the listeners of each event name, in the order of
    their registration. *)
Abbreviation EventEmitter := (gmap string (list Listener)).

Definition new_EventEmitter : EventEmitter := ∅.

Definition emitter_on (event : string) (cb : Listener) (e : EventEmitter)
  : EventEmitter :=
  <[event := default [] (e !! event) ++ [cb]]> e.

Definition removeAllListeners (e : EventEmitter) : EventEmitter := ∅.

Definition listenerCount (e : EventEmitter) : nat :=
  map_fold (λ _ l n, (length l + n)%nat) 0%nat e.

Definition events_message : string := "message".
Definition events_response : string := "response".

(** *** The controller *)

(** [ctx.state] is a collaborator; the model keeps the calls made on it. *)
Inductive StateCall :=
| clearFiles (project : string) (files : list string)
| addProcessTimeoutCause (cause : string)
| cancelFiles (files : list string) (root : string) (projectName : string).

(** The callbacks handed to [ctx.onCancel]. *)
Inductive CancelListener :=
| RpcOnCancel (emitter : nat)
| CancelPendingTasks.

(** Everything the closures of one pool share and mutate: the counter [id]
    of [runWithFiles], the calls on [ctx.state], the listeners registered
    with [ctx.onCancel], the emitters allocated so far (a channel refers to
    its emitter by position) and the tasks handed to [pool.run]. *)
Record Controller := {
  id : nat;
  state_calls : list StateCall;
  cancel_listeners : list CancelListener;
  emitters : list EventEmitter;
  submitted : list ContextRPC;
}.

Definition set_id (n : nat) (c : Controller) : Controller :=
  {| id := n; state_calls := state_calls c;
     cancel_listeners := cancel_listeners c; emitters := emitters c;
     submitted := submitted c |}.

Definition call_state (call : StateCall) (c : Controller) : Controller :=
  {| id := id c; state_calls := state_calls c ++ [call];
     cancel_listeners := cancel_listeners c; emitters := emitters c;
     submitted := submitted c |}.

Definition onCancel (l : CancelListener) (c : Controller) : Controller :=
  {| id := id c; state_calls := state_calls c;
     cancel_listeners := cancel_listeners c ++ [l]; emitters := emitters c;
     submitted := submitted c |}.

Definition set_emitters (es : list EventEmitter) (c : Controller) : Controller :=
  {| id := id c; state_calls := state_calls c;
     cancel_listeners := cancel_listeners c; emitters := es;
     submitted := submitted c |}.

Definition pool_run (data : ContextRPC) (c : Controller) : Controller :=
  {| id := id c; state_calls := state_calls c;
     cancel_listeners := cancel_listeners c; emitters := emitters c;
     submitted := submitted c ++ [data] |}.

(** Apply [f] to the emitter at position [e]. *)
Definition update_emitter (e : nat) (f : EventEmitter → EventEmitter)
    (c : Controller) : Controller :=
  match emitters c !! e with
  | Some em => set_emitters (<[e := f em]> (emitters c)) c
  | None => c
  end.

(** [createChildProcessChannel]: a fresh emitter; [createBirpc] subscribes
    its receiver through [on], which listens to [events.response]; the
    project's context gets a cancel listener.  The result is the position
    of the emitter, which stands for both [channel] and [cleanup]. *)
Definition createChildProcessChannel (c : Controller) : nat * Controller :=
  let e := length (emitters c) in
  let c := set_emitters (emitters c ++ [new_EventEmitter]) c in
  let c := update_emitter e (emitter_on events_response RpcReceive) c in
  let c := onCancel (RpcOnCancel e) c in
  (e, c).

(** [channel.onMessage(callback)]. *)
Definition channel_onMessage (e : nat) (k : nat) (c : Controller) : Controller :=
  update_emitter e (emitter_on events_message (PoolCallback k)) c.

Definition cleanup (e : nat) (c : Controller) : Controller :=
  update_emitter e removeAllListeners c.

(** *** Tasks *)

(** A call of [runFiles] that has reached [await pool.run(...)]: what it
    closed over, and the state of the promise it returned. *)
Record Task := {
  task_data : ContextRPC;
  task_project : WorkspaceProject;
  task_emitter : nat;
  task_result : option Settlement;
}.

Definition settle_task (r : Settlement) (t : Task) : Task :=
  {| task_data := task_data t; task_project := task_project t;
     task_emitter := task_emitter t; task_result := Some r |}.

(** What the pool does, as seen by the controller. *)
Inductive PoolEvent :=
| OnMessage (task : nat) (callback : nat)
| Settles (task : nat) (outcome : Settlement) (isCancelling : bool).

Definition terminate_pattern : string := "Failed to terminate worker".
Definition cancelled_pattern : string := "The task has been cancelled".

(** [error instanceof Error && /pattern/.test(error.message)]. *)
Definition error_matches (pattern : string) (error : JsValue) : bool :=
  match error with
  | ErrorInstance message => includes pattern message
  | NotAnError _ => false
  end.

Definition terminate_cause (files : list string) : string :=
  "Failed to terminate worker while running " +:+ join ", " files +:+ ".".

Definition aggregate_text : string :=
  "Errors occurred while running tests. For more information, see serialized error.".

(** The options handed to [new Tinypool]. *)
Record TinypoolOptions := {
  runtime : string;
  filename : string;
  maxThreads : Z;
  minThreads : Z;
  env : gmap string string;
  execArgv : list string;
  terminateTimeout : Z;
  concurrentTasksPerWorker : Z;
  maxMemoryLimitBeforeRecycle : option Q;
}.

Definition force_single (o : TinypoolOptions) : TinypoolOptions :=
  {| runtime := runtime o; filename := filename o;
     maxThreads := 1; minThreads := 1;
     env := env o; execArgv := execArgv o;
     terminateTimeout := terminateTimeout o;
     concurrentTasksPerWorker := concurrentTasksPerWorker o;
     maxMemoryLimitBeforeRecycle := maxMemoryLimitBeforeRecycle o |}.

(** The immutable part of the [Vitest] instance. *)
Record Vitest := {
  config : ResolvedConfig;
  distPath : string;
}.

(** A [[project, file]] pair handed to the dispatch function. *)
Definition WorkspaceSpec : Type := WorkspaceProject * string.

(** [x || undefined] on a [number | null]: zero is falsy. *)
Definition or_undefined (x : option Q) : option Q :=
  match x with
  | Some q => if Qeq_bool q 0 then None else Some q
  | None => None
  end.

Section VmForks.

(** Collaborators from other modules: [resolve] of pathe, [rootDir] of
    [paths], [getWorkerMemoryLimit] and [stringToBytes] of
    [utils/memory-limit] (the second with its optional percentage
    reference, answering a number or [null]) and [groupFilesByEnv] of
    [utils/test-helpers], whose result is an object from environment names
    to units, kept in the order of its keys. *)
Variable resolve : string → string → string.
Variable rootDir : string.
Variable getWorkerMemoryLimit : ResolvedConfig → MemoryLimitSpec.
Variable stringToBytes : MemoryLimitSpec → option Q → option Q.
Variable groupFilesByEnv : list WorkspaceSpec → list (string * list FileUnit).

Definition suppressWarningsPath : string := resolve rootDir "./suppress-warnings.cjs".

Definition getMemoryLimit (os : NodeOs) (config : ResolvedConfig) : option Q :=
  let memory := totalmem os in
  let limit := getWorkerMemoryLimit config in
  match memory with
  | Some memory =>
      stringToBytes limit (Some (if watch config then memory / 2 else memory)%Q)
  | None =>
      (* If totalmem is not supported we cannot resolve percentage based
         values like 0.5, "50%" *)
      if match limit with
         | LimitNumber n => negb (Qle_bool n 1)
         | LimitString s => negb (bool_decide (at_last s = Some percent_sign))
         end
      then stringToBytes limit None
      else None
  end.

Definition numCpus (os : NodeOs) : Z :=
  match availableParallelism os with
  | Some n => n
  | None => cpus_length os
  end.

Definition threadsCount (os : NodeOs) (ctx : Vitest) : Z :=
  if watch (config ctx)
  then Z.max (numCpus os / 2) 1
  else Z.max (numCpus os - 1) 1.

(** [ctx.config.poolOptions?.vmForks ?? {}]. *)
Definition vmForksOptions (ctx : Vitest) : VmForksOptions :=
  default no_vmForks_options (mjoin (poolOptions (config ctx))).

Definition worker (ctx : Vitest) : string := resolve (distPath ctx) "workers/vmForks.js".

(** The options of the pool, after the single-fork adjustment. *)
Definition tinypoolOptions (os : NodeOs) (ctx : Vitest)
    (execArgv0 : list string) (env0 : gmap string string) : TinypoolOptions :=
  let poolOptions := vmForksOptions ctx in
  let maxThreads :=
    default (default (threadsCount os ctx) (maxWorkers (config ctx)))
            (maxForks poolOptions) in
  let minThreads :=
    default (default (threadsCount os ctx) (minWorkers (config ctx)))
            (maxForks poolOptions) in
  let options :=
    {| runtime := "child_process";
       filename := resolve (distPath ctx) "worker.js";
       maxThreads := maxThreads;
       minThreads := minThreads;
       env := env0;
       execArgv :=
         ["--experimental-import-meta-resolve"; "--experimental-vm-modules";
          "--require"; suppressWarningsPath]
         ++ default [] (vmForks_execArgv poolOptions) ++ execArgv0;
       terminateTimeout := teardownTimeout (config ctx);
       concurrentTasksPerWorker := 1;
       maxMemoryLimitBeforeRecycle :=
         or_undefined (getMemoryLimit os (config ctx)) |} in
  if default false (singleFork poolOptions) || negb (fileParallelism (config ctx))
  then force_single options
  else options.

(** [runWithFiles(name)] starts with [let id = 0]; the controller of a new
    pool has made no call and holds no emitter. *)
Definition new_controller : Controller :=
  {| id := 0; state_calls := []; cancel_listeners := []; emitters := [];
     submitted := [] |}.

(** [runFiles] up to [await pool.run(data, { name, channel })]. *)
Definition runFiles_start (ctx : Vitest) (project : WorkspaceProject)
    (config : SerializedConfig) (files : list string) (environment : string)
    (invalidates : list string) (c : Controller) : Task * Controller :=
  let c := call_state (clearFiles (getName project) files) c in
  let '(channel, c) := createChildProcessChannel c in
  let c := set_id (S (id c)) c in
  let workerId := id c in
  let data :=
    {| rpc_pool := "forks";
       rpc_worker := worker ctx;
       rpc_config := config;
       rpc_files := files;
       rpc_invalidates := invalidates;
       rpc_environment := environment;
       workerId := workerId;
       projectName := getName project;
       providedContext := getProvidedContext project |} in
  let c := pool_run data c in
  ({| task_data := data; task_project := project; task_emitter := channel;
      task_result := None |}, c).

(** [runFiles] from the settlement of [pool.run] on: the [catch] clause,
    then [finally].  [isCancelling] is what [ctx.isCancelling] reads at that
    moment.  The result is the settlement of the promise of [runFiles]. *)
Definition runFiles_resume (ctx : Vitest) (t : Task) (outcome : Settlement)
    (isCancelling : bool) (c : Controller) : Settlement * Controller :=
  let files := rpc_files (task_data t) in
  let '(result, c) :=
    match outcome with
    | fulfilled => (fulfilled, c)
    | rejected error =>
        (* Worker got stuck and won't terminate - this may cause process to hang *)
        if error_matches terminate_pattern error
        then (fulfilled, call_state (addProcessTimeoutCause (terminate_cause files)) c)
        (* Intentionally cancelled *)
        else if isCancelling && error_matches cancelled_pattern error
        then (fulfilled,
              call_state (cancelFiles files (root (config ctx))
                            (name (project_config (task_project t)))) c)
        else (rejected error, c)
    end in
  (result, cleanup (task_emitter t) c).

(** [getConfig] with its memo table [configs]. *)
Definition getConfig (project : WorkspaceProject)
    (configs : gmap nat SerializedConfig) : SerializedConfig * gmap nat SerializedConfig :=
  match configs !! project_key project with
  | Some config => (config, configs)
  | None =>
      let _config := getSerializableConfig project in
      let config :=
        {| ser_base := _config;
           (* v8 serialize does not support regex *)
           ser_testNamePattern :=
             if truthy_pattern (testNamePattern _config)
             then stringifyRegex <$> testNamePattern _config
             else None |} in
      (config, <[project_key project := config]> configs)
  end.

(** The [map] over the units: each step resolves the configuration and runs
    [runFiles] up to its first [await]. *)
Fixpoint start_all (ctx : Vitest) (units : list FileUnit) (invalidates : list string)
    (configs : gmap nat SerializedConfig) (c : Controller) : list Task * Controller :=
  match units with
  | [] => ([], c)
  | u :: rest =>
      let '(config, configs) := getConfig (project u) configs in
      let '(t, c) :=
        runFiles_start ctx (project u) config [file u] (environment u) invalidates c in
      let '(ts, c) := start_all ctx rest invalidates configs c in
      (t :: ts, c)
  end.

(** The dispatch function up to [await Promise.allSettled(...)]. *)
Definition dispatch_start (ctx : Vitest) (specs : list WorkspaceSpec)
    (invalidates : list string) (c : Controller) : list Task * Controller :=
  (* Cancel pending tasks from pool when possible *)
  let c := onCancel CancelPendingTasks c in
  let configs : gmap nat SerializedConfig := ∅ in
  let filesByEnv := groupFilesByEnv specs in
  let promises := concat (snd <$> filesByEnv) in
  start_all ctx promises invalidates configs c.

(** One event of the pool.  A promise settles once, and the pool subscribes
    to a channel only while its task is running: an event for a task that
    has settled, or for no task, changes nothing. *)
Definition deliver (ctx : Vitest) (ev : PoolEvent) (st : list Task * Controller)
  : list Task * Controller :=
  let '(tasks, c) := st in
  match ev with
  | OnMessage i k =>
      match tasks !! i with
      | Some t =>
          match task_result t with
          | None => (tasks, channel_onMessage (task_emitter t) k c)
          | Some _ => st
          end
      | None => st
      end
  | Settles i outcome isCancelling =>
      match tasks !! i with
      | Some t =>
          match task_result t with
          | None =>
              let '(r, c) := runFiles_resume ctx t outcome isCancelling c in
              (<[i := settle_task r t]> tasks, c)
          | Some _ => st
          end
      | None => st
      end
  end.

Definition deliver_all (ctx : Vitest) (evs : list PoolEvent)
    (st : list Task * Controller) : list Task * Controller :=
  foldl (λ st ev, deliver ctx ev st) st evs.

(** [Promise.allSettled]: resolved once every promise has settled, with
    the settlements in the order of the promises. *)
Definition allSettled (tasks : list Task) : option (list Settlement) :=
  mapM task_result tasks.

Definition rejection_reason (r : Settlement) : option JsValue :=
  match r with
  | fulfilled => None
  | rejected reason => Some reason
  end.

(** The dispatch function after [await Promise.allSettled(...)]. *)
Definition dispatch_finish (results : list Settlement) : Completion :=
  let errors := omap rejection_reason results in
  if bool_decide (0 < length errors)%nat
  then Threw {| errors := errors; aggregate_message := aggregate_text |}
  else Resolved.

(** A call of the dispatch function returned by [runWithFiles], against the
    events the pool delivers afterwards.  The completion is [None] while
    [Promise.allSettled] is still waiting. *)
Definition dispatch (ctx : Vitest) (specs : list WorkspaceSpec)
    (invalidates : list string) (evs : list PoolEvent) (c : Controller)
  : option Completion * Controller :=
  let '(tasks, c) := deliver_all ctx evs (dispatch_start ctx specs invalidates c) in
  (dispatch_finish <$> allSettled tasks, c).

(** The tasks a call starts, for statements about single tasks. *)
Definition dispatch_tasks (ctx : Vitest) (specs : list WorkspaceSpec)
    (invalidates : list string) (evs : list PoolEvent) (c : Controller) : list Task :=
  fst (deliver_all ctx evs (dispatch_start ctx specs invalidates c)).

(** Listeners still registered on the emitters of the channels. *)
Definition registered_listeners (c : Controller) : nat :=
  sum_list (listenerCount <$> emitters c).

(** Calls of the dispatch function one after the other, each with the
    events the pool delivers during it. *)
Definition DispatchCall : Type := list WorkspaceSpec * list string * list PoolEvent.

Fixpoint dispatch_seq (ctx : Vitest) (calls : list DispatchCall) (c : Controller)
  : list (option Completion) * Controller :=
  match calls with
  | [] => ([], c)
  | (specs, invalidates, evs) :: rest =>
      let '(r, c) := dispatch ctx specs invalidates evs c in
      let '(rs, c) := dispatch_seq ctx rest c in
      (r :: rs, c)
  end.

(** The number of tasks a call of the dispatch function starts. *)
Definition task_count (specs : list WorkspaceSpec) : nat :=
  length (concat (snd <$> groupFilesByEnv specs)).

(** The identifiers a call of the dispatch function hands out. *)
Definition assigned_ids (ctx : Vitest) (specs : list WorkspaceSpec)
    (invalidates : list string) (c : Controller) : list nat :=
  (workerId ∘ task_data) <$> fst (dispatch_start ctx specs invalidates c).

(** ** The vocabulary of the specification *)

(** How [pool.run] of task [i] settled, and what [ctx.isCancelling] read
    then: its first settlement among the events. *)
Fixpoint first_settlement (i : nat) (evs : list PoolEvent) : option (Settlement * bool) :=
  match evs with
  | [] => None
  | Settles j outcome isCancelling :: rest =>
      if decide (i = j) then Some (outcome, isCancelling)
      else first_settlement i rest
  | OnMessage _ _ :: rest => first_settlement i rest
  end.

(** Outcome classification in the words of the specification: a rejection
    is a termination timeout, else an intentional cancellation, else a
    genuine error. *)
Inductive Classification :=
| Success
| TerminationTimeout
| IntentionalCancellation
| GenuineTaskError (error : JsValue).

Definition classify (outcome : Settlement) (isCancelling : bool) : Classification :=
  match outcome with
  | fulfilled => Success
  | rejected error =>
      if error_matches terminate_pattern error then TerminationTimeout
      else if isCancelling && error_matches cancelled_pattern error
      then IntentionalCancellation
      else GenuineTaskError error
  end.

Definition genuine_error (s : Settlement * bool) : option JsValue :=
  match classify s.1 s.2 with
  | GenuineTaskError error => Some error
  | _ => None
  end.

(** The genuine errors of the first [n] tasks, in the order of the tasks. *)
Definition genuine_errors (n : nat) (evs : list PoolEvent) : list JsValue :=
  omap (λ i, first_settlement i evs ≫= genuine_error) (seq 0 n).

Definition completion_of (errs : list JsValue) : Completion :=
  match errs with
  | [] => Resolved
  | _ => Threw {| errors := errs; aggregate_message := aggregate_text |}
  end.

(** The settlement of the promise of [runFiles] under a classification:
    only a genuine error is rethrown. *)
Definition settlement_of (k : Classification) : Settlement :=
  match k with
  | GenuineTaskError error => rejected error
  | _ => fulfilled
  end.

(** The state of the channels during a call of the dispatch function that
    found [base] emitters: task [j] owns emitter [base + j], the emitters
    found at the start and those of the settled tasks have no listener. *)
Definition channels_released (base : nat) (tasks : list Task) (c : Controller) : Prop :=
  length (emitters c) = (base + length tasks)%nat
  ∧ (∀ k e, (k < base)%nat → emitters c !! k = Some e → listenerCount e = 0%nat)
  ∧ (∀ j t, tasks !! j = Some t →
       task_emitter t = (base + j)%nat
       ∧ (is_Some (task_result t) →
          ∀ e, emitters c !! (base + j)%nat = Some e → listenerCount e = 0%nat)).

(** ** Concrete inputs *)

(** A configuration without overrides, a host, a project with a regular
    expression for [testNamePattern], and three files of that project. *)
Definition example_config (w : bool) : ResolvedConfig :=
  {| watch := w; poolOptions := None; maxWorkers := None; minWorkers := None;
     fileParallelism := true; teardownTimeout := 10000; root := "/repo";
     name := "unit";
     testNamePattern := Some (PatRegExp {| source := "adds"; flags := "i" |}) |}.

Definition example_single_fork : ResolvedConfig :=
  {| watch := false;
     poolOptions :=
       Some (Some {| maxForks := Some 6; singleFork := Some true;
                     vmForks_execArgv := None |});
     maxWorkers := Some 4; minWorkers := Some 2;
     fileParallelism := true; teardownTimeout := 10000; root := "/repo";
     name := "unit"; testNamePattern := None |}.

Definition example_os (u : Z) (memory : option Q) : NodeOs :=
  {| availableParallelism := Some u; cpus_length := u; totalmem := memory |}.

Definition example_ctx (w : bool) : Vitest :=
  {| config := example_config w; distPath := "/repo/dist" |}.

Definition example_project : WorkspaceProject :=
  {| project_key := 0; project_config := example_config false;
     getName := "unit"; getSerializableConfig := example_config false;
     getProvidedContext := EmptyString |}.

Definition example_specs : list WorkspaceSpec :=
  [(example_project, "a.test.ts"); (example_project, "b.test.ts");
   (example_project, "c.test.ts")].

Definition example_resolve (base rel : string) : string := base +:+ "/" +:+ rel.

Definition example_groupFilesByEnv (specs : list WorkspaceSpec)
  : list (string * list FileUnit) :=
  [("node",
    (λ s : WorkspaceSpec,
       {| file := s.2; environment := "node"; project := s.1 |}) <$> specs)].

Definition example_task : Task :=
  {| task_data :=
       {| rpc_pool := "forks"; rpc_worker := "/repo/dist/workers/vmForks.js";
          rpc_config := {| ser_base := example_config false;
                           ser_testNamePattern := Some "$$vitest:/adds/i" |};
          rpc_files := ["a.test.ts"]; rpc_invalidates := [];
          rpc_environment := "node"; workerId := 1; projectName := "unit";
          providedContext := EmptyString |};
     task_project := example_project;
     task_emitter := 0;
     task_result := None |}.

(** The controller while [example_task] is running. *)
Definition example_running : Controller :=
  {| id := 1; state_calls := [clearFiles "unit" ["a.test.ts"]];
     cancel_listeners := [CancelPendingTasks; RpcOnCancel 0];
     emitters := [emitter_on events_message (PoolCallback 0)
                    (emitter_on events_response RpcReceive new_EventEmitter)];
     submitted := [task_data example_task] |}.

(** The second file fails, the other two pass. *)
Definition example_events : list PoolEvent :=
  [OnMessage 0 0; OnMessage 1 1;
   Settles 1 (rejected (ErrorInstance "boom")) false;
   Settles 0 fulfilled false;
   OnMessage 2 2;
   Settles 2 fulfilled false].

(** The second file is rejected with a thrown string that reads like a
    cancellation, while a cancellation is in progress. *)
Definition example_thrown_text_events : list PoolEvent :=
  [Settles 0 fulfilled true;
   Settles 1 (rejected (NotAnError "The task has been cancelled")) true;
   Settles 2 fulfilled true].

(** A message that matches both patterns. *)
Definition both_patterns : string :=
  "Failed to terminate worker: The task has been cancelled".

(** ** Messages on a channel *)

(** [emitter.emit(event, message)] calls the listeners of the event in the
    order of their registration; the model keeps which listeners are
    called. *)
Definition emit (event : string) (e : EventEmitter) : list Listener :=
  default [] (e !! event).

(** [channel.postMessage(message)], used by the pool to hand a message of
    the worker to the controller: [emitter.emit(events.response, message)]
    on the emitter at position [e]. *)
Definition channel_postMessage (e : nat) (c : Controller) : list Listener :=
  default [] (emit events_response <$> emitters c !! e).

(** [post(v)] of the birpc options, used by the controller to send to the
    worker: [emitter.emit(events.message, v)]. *)
Definition rpc_post (e : nat) (c : Controller) : list Listener :=
  default [] (emit events_message <$> emitters c !! e).

(** The callbacks the pool subscribes on the channel of task [i]. *)
Fixpoint callbacks_of (i : nat) (evs : list PoolEvent) : list nat :=
  match evs with
  | [] => []
  | OnMessage j k :: rest =>
      if decide (i = j) then k :: callbacks_of i rest else callbacks_of i rest
  | Settles _ _ _ :: rest => callbacks_of i rest
  end.

(** The snapshot [getConfig] builds for a configuration it has not cached. *)
Definition serialize_config (_config : ResolvedConfig) : SerializedConfig :=
  {| ser_base := _config;
     ser_testNamePattern :=
       if truthy_pattern (testNamePattern _config)
       then stringifyRegex <$> testNamePattern _config
       else None |}.

(** The first unit of a project, by the identity of the project. *)
Definition first_unit_of (key : nat) (units : list FileUnit) : option FileUnit :=
  snd <$> list_find (λ u, project_key (project u) = key) units.

(** What the [catch] clause of [runFiles] records on [ctx.state]. *)
Definition record_of (ctx : Vitest) (t : Task) (k : Classification) : list StateCall :=
  match k with
  | TerminationTimeout =>
      [addProcessTimeoutCause (terminate_cause (rpc_files (task_data t)))]
  | IntentionalCancellation =>
      [cancelFiles (rpc_files (task_data t)) (root (config ctx))
         (name (project_config (task_project t)))]
  | Success | GenuineTaskError _ => []
  end.

(** The [clearFiles] calls of the start phase. *)
Definition clear_calls (units : list FileUnit) : list StateCall :=
  (λ u, clearFiles (getName (project u)) [file u]) <$> units.

(** The emitter of a channel right after [createChildProcessChannel]. *)
Definition fresh_channel : EventEmitter :=
  emitter_on events_response RpcReceive new_EventEmitter.

(** The units of a call of the dispatch function. *)
Definition units_of (specs : list WorkspaceSpec) : list FileUnit :=
  concat (snd <$> groupFilesByEnv specs).

(** The configuration of the task of unit [u] among [units], when the call
    found [configs] cached: the cached snapshot, else the snapshot of the
    first unit with the same project. *)
Definition memo_config (configs : gmap nat SerializedConfig)
    (units : list FileUnit) (u : FileUnit) : SerializedConfig :=
  match configs !! project_key (project u) with
  | Some cached => cached
  | None =>
      serialize_config
        (getSerializableConfig
           (project (default u (first_unit_of (project_key (project u)) units))))
  end.

(** The task [runFiles] starts for a unit. *)
Definition started_task (ctx : Vitest) (invalidates : list string)
    (config : SerializedConfig) (u : FileUnit) (wid emitter : nat) : Task :=
  {| task_data :=
       {| rpc_pool := "forks";
          rpc_worker := worker ctx;
          rpc_config := config;
          rpc_files := [file u];
          rpc_invalidates := invalidates;
          rpc_environment := environment u;
          workerId := wid;
          projectName := getName (project u);
          providedContext := getProvidedContext (project u) |};
     task_project := project u;
     task_emitter := emitter;
     task_result := None |}.

Definition started_tasks (ctx : Vitest) (invalidates : list string)
    (configs : gmap nat SerializedConfig) (units : list FileUnit)
    (id0 base : nat) : list Task :=
  imap (λ j u, started_task ctx invalidates (memo_config configs units u) u
                 (id0 + S j) (base + j)) units.

(** A configuration with every override given, a zero [maxForks] among
    them, and one with [maxWorkers] alone. *)
Definition example_overrides : ResolvedConfig :=
  {| watch := false;
     poolOptions :=
       Some (Some {| maxForks := Some 0; singleFork := None;
                     vmForks_execArgv := None |});
     maxWorkers := Some 4; minWorkers := Some 2;
     fileParallelism := true; teardownTimeout := 10000; root := "/repo";
     name := "unit"; testNamePattern := None |}.

Definition example_max_only : ResolvedConfig :=
  {| watch := false; poolOptions := None;
     maxWorkers := Some 2; minWorkers := None;
     fileParallelism := true; teardownTimeout := 10000; root := "/repo";
     name := "unit"; testNamePattern := None |}.

(** The settlements of [example_events] in another order, with a repeated
    settlement and one for a task that does not exist. *)
Definition example_reordered_events : list PoolEvent :=
  [Settles 2 fulfilled false;
   Settles 0 fulfilled false;
   Settles 7 (rejected (ErrorInstance "stray")) false;
   Settles 1 (rejected (ErrorInstance "boom")) false;
   Settles 1 fulfilled true].

(** The first file ends in a termination timeout, reported twice, the
    second in an intentional cancellation, the third in a genuine error. *)
Definition example_swallowed_events : list PoolEvent :=
  [Settles 0 (rejected (ErrorInstance "Failed to terminate worker")) false;
   Settles 0 (rejected (ErrorInstance "Failed to terminate worker")) false;
   Settles 2 (rejected (ErrorInstance "boom")) true;
   Settles 1 (rejected (ErrorInstance "The task has been cancelled")) true].

(** A cache that holds a snapshot for [example_project]. *)
Definition example_cached : gmap nat SerializedConfig :=
  {[ 0%nat := {| ser_base := example_config true; ser_testNamePattern := None |} ]}.

(** What the [catch] clause of [runFiles] records for the task of unit [u],
    given how [pool.run] settled it and what [ctx.isCancelling] read then,
    if the task has settled. *)
Definition unit_record (ctx : Vitest) (u : FileUnit)
    (s : option (Settlement * bool)) : list StateCall :=
  match s with
  | None => []
  | Some (outcome, isCancelling) =>
      match classify outcome isCancelling with
      | TerminationTimeout =>
          [addProcessTimeoutCause
             ("Failed to terminate worker while running " +:+ file u +:+ ".")]
      | IntentionalCancellation =>
          [cancelFiles [file u] (root (config ctx))
             (name (project_config (project u)))]
      | Success | GenuineTaskError _ => []
      end
  end.

(** The records the events ahead will leave, task by task: none for a task
    that has settled already. *)
Definition pending_records (ctx : Vitest) (evs : list PoolEvent)
    (tasks : list Task) : list (list StateCall) :=
  imap (λ i t,
          match task_result t with
          | Some _ => []
          | None =>
              match first_settlement i evs with
              | Some s => record_of ctx t (classify s.1 s.2)
              | None => []
              end
          end) tasks.

(** * Properties *)

(** ** Pool sizing *)

Lemma threadsCount_bounds (os : NodeOs) (ctx : Vitest) :
  0 < numCpus os → 1 ≤ threadsCount os ctx ≤ numCpus os.
Proof.
  intros Hu. unfold threadsCount.
  destruct (watch (config ctx)).
  - assert (numCpus os / 2 ≤ numCpus os) by (apply Z.div_le_upper_bound; lia). lia.
  - lia.
Qed.

(** C4: for a positive number [u] of processing units and no override
    ([maxForks], [maxWorkers], [minWorkers] absent, no single fork, file
    parallelism on), the pool is built with
    [minThreads = maxThreads = max (floor (u / 2)) 1] in watch mode and
    [max (u - 1) 1] otherwise; the count lies between 1 and [u]. *)
Theorem default_worker_count (os : NodeOs) (ctx : Vitest)
    (execArgv0 : list string) (env0 : gmap string string) (u : Z) :
  0 < u →
  numCpus os = u →
  maxForks (vmForksOptions ctx) = None →
  maxWorkers (config ctx) = None →
  minWorkers (config ctx) = None →
  default false (singleFork (vmForksOptions ctx)) = false →
  fileParallelism (config ctx) = true →
  let options := tinypoolOptions os ctx execArgv0 env0 in
  let expected := if watch (config ctx) then Z.max (u / 2) 1 else Z.max (u - 1) 1 in
  maxThreads options = expected ∧ minThreads options = expected ∧ 1 ≤ expected ≤ u.
Proof.
  intros Hu Hn Hf Hmax Hmin Hs Hp options expected.
  assert (Ht : threadsCount os ctx = expected).
  { unfold threadsCount, expected. by rewrite Hn. }
  subst options. unfold tinypoolOptions.
  rewrite Hs, Hp, Hf, Hmax, Hmin. simpl.
  split; [done | split; [done |]].
  rewrite <- Ht, <- Hn. apply threadsCount_bounds. lia.
Qed.

(** C6: a single fork, or file parallelism switched off, builds the pool
    with [minThreads = maxThreads = 1], whatever the number of processing
    units, the watch flag and the overrides are. *)
Theorem single_worker_forced (os : NodeOs) (ctx : Vitest)
    (execArgv0 : list string) (env0 : gmap string string) :
  singleFork (vmForksOptions ctx) = Some true ∨ fileParallelism (config ctx) = false →
  let options := tinypoolOptions os ctx execArgv0 env0 in
  maxThreads options = 1 ∧ minThreads options = 1.
Proof.
  intros H options. subst options. unfold tinypoolOptions.
  assert (default false (singleFork (vmForksOptions ctx))
          || negb (fileParallelism (config ctx)) = true) as ->.
  { destruct H as [-> | ->]; simpl; [done | by rewrite orb_true_r]. }
  done.
Qed.

(** ** Serializing pattern values *)

Lemma substring_whole (s : string) : String.substring 0 (String.length s) s = s.
Proof. induction s as [|a s IH]; simpl; [done | by rewrite IH]. Qed.

Lemma stringifyRegex_marker (r : RegExp) :
  String.prefix vitest_marker (stringifyRegex (PatRegExp r)) = true.
Proof.
  destruct r as [src fl]. reflexivity.
Qed.

(** C9: [stringifyRegex] turns a regular expression into the marker
    [$$vitest:] followed by its textual form, from which the textual form
    is read back by dropping the marker; a plain string is returned
    unchanged; [getConfig] applies it to a truthy [testNamePattern]. *)
Theorem regex_serialization :
  (∀ r : RegExp,
     stringifyRegex (PatRegExp r) = vitest_marker +:+ RegExp_toString r
     ∧ String.prefix vitest_marker (stringifyRegex (PatRegExp r)) = true
     ∧ String.substring (String.length vitest_marker)
         (String.length (RegExp_toString r)) (stringifyRegex (PatRegExp r))
       = RegExp_toString r)
  ∧ (∀ s : string, stringifyRegex (PatString s) = s)
  ∧ (∀ (project : WorkspaceProject) (configs : gmap nat SerializedConfig) (p : Pattern),
       configs !! project_key project = None →
       testNamePattern (getSerializableConfig project) = Some p →
       truthy_pattern (Some p) = true →
       ser_testNamePattern (getConfig project configs).1 = Some (stringifyRegex p)).
Proof.
  split; [|split].
  - intros r. split; [done|]. split; [apply stringifyRegex_marker|].
    unfold stringifyRegex. generalize (RegExp_toString r). intros t.
    simpl. apply substring_whole.
  - done.
  - intros project configs p Hnone Hp Ht. unfold getConfig.
    rewrite Hnone. simpl. rewrite Hp, Ht. done.
Qed.

(** ** Memory ceiling *)



(** ** A single task *)

Lemma createChildProcessChannel_spec (c : Controller) :
  createChildProcessChannel c
  = (length (emitters c),
     onCancel (RpcOnCancel (length (emitters c)))
       (set_emitters (emitters c ++ [emitter_on events_response RpcReceive ∅]) c)).
Proof.
  unfold createChildProcessChannel, update_emitter. simpl.
  rewrite list_lookup_middle by done.
  rewrite insert_app_r_alt by done. rewrite Nat.sub_diag. done.
Qed.

Lemma runFiles_start_spec (ctx : Vitest) (project : WorkspaceProject)
    (config : SerializedConfig) (files : list string) (environment : string)
    (invalidates : list string) (c : Controller) :
  let r := runFiles_start ctx project config files environment invalidates c in
  task_result r.1 = None
  ∧ task_emitter r.1 = length (emitters c)
  ∧ workerId (task_data r.1) = S (id c)
  ∧ rpc_files (task_data r.1) = files
  ∧ id r.2 = S (id c)
  ∧ emitters r.2 = emitters c ++ [emitter_on events_response RpcReceive ∅]
  ∧ submitted r.2 = submitted c ++ [task_data r.1].
Proof.
  unfold runFiles_start. rewrite createChildProcessChannel_spec. simpl.
  repeat split.
Qed.

Lemma runFiles_resume_result (ctx : Vitest) (t : Task) (outcome : Settlement)
    (isCancelling : bool) (c : Controller) :
  (runFiles_resume ctx t outcome isCancelling c).1
  = settlement_of (classify outcome isCancelling).
Proof.
  unfold runFiles_resume, classify. destruct outcome as [|error]; [done|].
  destruct (error_matches terminate_pattern error); [done|].
  destruct (isCancelling && error_matches cancelled_pattern error); done.
Qed.

Lemma listenerCount_empty : listenerCount ∅ = 0%nat.
Proof. unfold listenerCount. by rewrite map_fold_empty. Qed.

Lemma update_emitter_length (e : nat) (f : EventEmitter → EventEmitter)
    (c : Controller) :
  length (emitters (update_emitter e f c)) = length (emitters c).
Proof.
  unfold update_emitter. destruct (emitters c !! e); [|done].
  simpl. apply length_insert.
Qed.

Lemma update_emitter_lookup (e : nat) (f : EventEmitter → EventEmitter)
    (c : Controller) (k : nat) :
  emitters (update_emitter e f c) !! k
  = if decide (k = e) then f <$> emitters c !! e else emitters c !! k.
Proof.
  unfold update_emitter. destruct (emitters c !! e) as [em|] eqn:E; simpl.
  - case_decide as Hk.
    + subst k. apply list_lookup_insert_eq. by eapply lookup_lt_Some.
    + by apply list_lookup_insert_ne.
  - case_decide; [by subst|done].
Qed.

Lemma runFiles_resume_emitters (ctx : Vitest) (t : Task) (outcome : Settlement)
    (isCancelling : bool) (c : Controller) :
  emitters (runFiles_resume ctx t outcome isCancelling c).2
  = emitters (cleanup (task_emitter t) c).
Proof.
  unfold runFiles_resume, cleanup, update_emitter.
  destruct outcome as [|error]; [done|].
  destruct (error_matches terminate_pattern error); simpl;
    [|destruct (isCancelling && error_matches cancelled_pattern error); simpl];
    by destruct (emitters c !! task_emitter t).
Qed.

Lemma runFiles_resume_id (ctx : Vitest) (t : Task) (outcome : Settlement)
    (isCancelling : bool) (c : Controller) :
  id (runFiles_resume ctx t outcome isCancelling c).2 = id c.
Proof.
  unfold runFiles_resume, cleanup, update_emitter.
  destruct outcome as [|error]; simpl.
  - by destruct (emitters c !! task_emitter t).
  - destruct (error_matches terminate_pattern error); simpl;
      [|destruct (isCancelling && error_matches cancelled_pattern error); simpl];
      by destruct (emitters c !! task_emitter t).
Qed.

(** ** The start phase *)

Lemma start_all_spec (ctx : Vitest) (units : list FileUnit)
    (invalidates : list string) (configs : gmap nat SerializedConfig)
    (c : Controller) :
  let r := start_all ctx units invalidates configs c in
  length r.1 = length units
  ∧ id r.2 = (id c + length units)%nat
  ∧ length (emitters r.2) = (length (emitters c) + length units)%nat
  ∧ (∀ k, (k < length (emitters c))%nat → emitters r.2 !! k = emitters c !! k)
  ∧ (∀ j t, r.1 !! j = Some t →
       task_result t = None
       ∧ task_emitter t = (length (emitters c) + j)%nat
       ∧ workerId (task_data t) = (id c + S j)%nat).
Proof.
  revert configs c. induction units as [|u units IH]; intros configs c.
  - simpl. split; [done|]. split; [lia|]. split; [lia|]. split; [done|].
    intros j t Hj. by rewrite lookup_nil in Hj.
  - cbn [start_all].
    destruct (getConfig (project u) configs) as [config configs'].
    pose proof (runFiles_start_spec ctx (project u) config [file u]
                  (environment u) invalidates c) as Hstart.
    destruct (runFiles_start ctx (project u) config [file u] (environment u)
                invalidates c) as [t c1].
    simpl in Hstart. destruct Hstart as (Hres & Hem & Hwid & _ & Hid & Hems & _).
    specialize (IH configs' c1).
    destruct (start_all ctx units invalidates configs' c1) as [ts c2].
    simpl in IH. destruct IH as (Hlen & Hid2 & Hlen2 & Hold & Htasks).
    simpl. rewrite Hems, length_app in Hlen2. simpl in Hlen2.
    split; [lia|]. split; [lia|]. split; [lia|]. split.
    + intros k Hk. rewrite Hold by (rewrite Hems, length_app; lia).
      rewrite Hems. by apply lookup_app_l.
    + intros [|j] t' Hj; simpl in Hj.
      * inversion Hj; subst t'. rewrite Hres, Hem, Hwid. repeat split; lia.
      * destruct (Htasks j t' Hj) as (? & Hem' & Hwid').
        rewrite Hems, length_app in Hem'. simpl in Hem'.
        split; [done|]. split; lia.
Qed.

(** ** Events of the pool *)

Lemma first_settlement_cons (i : nat) (ev : PoolEvent) (evs : list PoolEvent) :
  first_settlement i (ev :: evs)
  = match first_settlement i [ev] with
    | Some s => Some s
    | None => first_settlement i evs
    end.
Proof. destruct ev as [j k|j o b]; simpl; [done|]. by case_decide. Qed.

Lemma deliver_length (ctx : Vitest) (ev : PoolEvent) (tasks : list Task)
    (c : Controller) :
  length (deliver ctx ev (tasks, c)).1 = length tasks.
Proof.
  destruct ev as [i k|i o b]; simpl.
  - destruct (tasks !! i) as [t|]; [|done]. by destruct (task_result t).
  - destruct (tasks !! i) as [t|]; [|done].
    destruct (task_result t); [done|].
    destruct (runFiles_resume ctx t o b c). simpl. apply length_insert.
Qed.

(** What one event does to the promise of task [i]. *)
Lemma deliver_lookup (ctx : Vitest) (ev : PoolEvent) (tasks : list Task)
    (c : Controller) (i : nat) (t : Task) :
  tasks !! i = Some t →
  ∃ t', (deliver ctx ev (tasks, c)).1 !! i = Some t'
    ∧ task_data t' = task_data t
    ∧ task_emitter t' = task_emitter t
    ∧ task_result t'
      = match task_result t with
        | Some r => Some r
        | None => (λ s, settlement_of (classify s.1 s.2)) <$> first_settlement i [ev]
        end.
Proof.
  intros Hi. destruct ev as [j k|j o b]; simpl.
  - exists t. split.
    + destruct (tasks !! j) as [tj|]; [|done]. by destruct (task_result tj).
    + by destruct (task_result t).
  - destruct (decide (i = j)) as [->|Hne].
    + rewrite Hi. destruct (task_result t) as [r|] eqn:Hr.
      * exists t. by rewrite Hr.
      * pose proof (runFiles_resume_result ctx t o b c) as Hres.
        destruct (runFiles_resume ctx t o b c) as [r c']. simpl in *.
        exists (settle_task r t). split.
        { apply list_lookup_insert_eq. by eapply lookup_lt_Some. }
        simpl. by rewrite Hres.
    + exists t. split.
      * destruct (tasks !! j) as [tj|] eqn:Hj; [|done].
        destruct (task_result tj); [done|].
        destruct (runFiles_resume ctx tj o b c). simpl.
        by rewrite list_lookup_insert_ne.
      * by destruct (task_result t).
Qed.

Lemma deliver_all_cons (ctx : Vitest) (ev : PoolEvent) (evs : list PoolEvent)
    (st : list Task * Controller) :
  deliver_all ctx (ev :: evs) st = deliver_all ctx evs (deliver ctx ev st).
Proof. done. Qed.

Lemma deliver_all_length (ctx : Vitest) (evs : list PoolEvent)
    (tasks : list Task) (c : Controller) :
  length (deliver_all ctx evs (tasks, c)).1 = length tasks.
Proof.
  revert tasks c. induction evs as [|ev evs IH]; intros tasks c; [done|].
  rewrite deliver_all_cons.
  pose proof (deliver_length ctx ev tasks c) as H.
  destruct (deliver ctx ev (tasks, c)) as [tasks1 c1].
  rewrite IH. done.
Qed.

(** The promise of task [i] after the events: it keeps the settlement it
    had, and else takes the one of the first event that settles it. *)
Lemma deliver_all_lookup (ctx : Vitest) (evs : list PoolEvent)
    (tasks : list Task) (c : Controller) (i : nat) (t : Task) :
  tasks !! i = Some t →
  ∃ t', (deliver_all ctx evs (tasks, c)).1 !! i = Some t'
    ∧ task_data t' = task_data t
    ∧ task_emitter t' = task_emitter t
    ∧ task_result t'
      = match task_result t with
        | Some r => Some r
        | None => (λ s, settlement_of (classify s.1 s.2)) <$> first_settlement i evs
        end.
Proof.
  revert tasks c t. induction evs as [|ev evs IH]; intros tasks c t Hi.
  - exists t. simpl. split; [done|]. by destruct (task_result t).
  - rewrite deliver_all_cons.
    destruct (deliver_lookup ctx ev tasks c i t Hi) as (t1 & H1 & Hd1 & He1 & Hr1).
    destruct (deliver ctx ev (tasks, c)) as [tasks1 c1]. simpl in H1.
    destruct (IH tasks1 c1 t1 H1) as (t2 & H2 & Hd2 & He2 & Hr2).
    exists t2. split; [done|]. split; [congruence|]. split; [congruence|].
    rewrite Hr2, Hr1, (first_settlement_cons i ev evs).
    destruct (task_result t); [done|].
    by destruct (first_settlement i [ev]).
Qed.

(** ** The dispatch function *)

Lemma dispatch_tasks_length (ctx : Vitest) (specs : list WorkspaceSpec)
    (invalidates : list string) (evs : list PoolEvent) (c : Controller) :
  length (dispatch_tasks ctx specs invalidates evs c) = task_count specs.
Proof.
  unfold dispatch_tasks, dispatch_start, task_count.
  pose proof (start_all_spec ctx (concat (groupFilesByEnv specs).*2) invalidates
                ∅ (onCancel CancelPendingTasks c)) as (Hlen & _).
  destruct (start_all ctx (concat (groupFilesByEnv specs).*2) invalidates ∅
              (onCancel CancelPendingTasks c)) as [tasks c1].
  rewrite deliver_all_length. done.
Qed.

(** The promise of task [i] of a call: pending until the pool settles the
    task, then settled as the classification says. *)
Lemma dispatch_tasks_lookup (ctx : Vitest) (specs : list WorkspaceSpec)
    (invalidates : list string) (evs : list PoolEvent) (c : Controller) (i : nat) :
  (i < task_count specs)%nat →
  ∃ t, dispatch_tasks ctx specs invalidates evs c !! i = Some t
    ∧ task_result t
      = (λ s, settlement_of (classify s.1 s.2)) <$> first_settlement i evs.
Proof.
  intros Hi. unfold dispatch_tasks, dispatch_start, task_count in *.
  pose proof (start_all_spec ctx (concat (groupFilesByEnv specs).*2) invalidates
                ∅ (onCancel CancelPendingTasks c)) as (Hlen & _ & _ & _ & Htasks).
  destruct (start_all ctx (concat (groupFilesByEnv specs).*2) invalidates ∅
              (onCancel CancelPendingTasks c)) as [tasks c1].
  simpl in *.
  destruct (lookup_lt_is_Some_2 tasks i) as [t Ht]; [lia|].
  destruct (Htasks i t Ht) as (Hres & _).
  destruct (deliver_all_lookup ctx evs tasks c1 i t Ht) as (t' & Ht' & _ & _ & Hr).
  exists t'. split; [done|]. by rewrite Hr, Hres.
Qed.

Lemma dispatch_finish_spec (results : list Settlement) :
  dispatch_finish results = completion_of (omap rejection_reason results).
Proof.
  unfold dispatch_finish. by destruct (omap rejection_reason results).
Qed.

Lemma omap_fmap_agree {A B C : Type} (f : A → B) (g : B → option C)
    (h : A → option C) (l : list A) :
  Forall (λ x, g (f x) = h x) l → omap g (f <$> l) = omap h l.
Proof.
  induction 1 as [|x l Hx _ IH]; [done|].
  csimpl. by rewrite Hx, IH.
Qed.

Lemma genuine_error_reason (s : Settlement * bool) :
  rejection_reason (settlement_of (classify s.1 s.2)) = genuine_error s.
Proof. unfold genuine_error. by destruct (classify s.1 s.2). Qed.

Lemma dispatch_fst (ctx : Vitest) (specs : list WorkspaceSpec)
    (invalidates : list string) (evs : list PoolEvent) (c : Controller) :
  (dispatch ctx specs invalidates evs c).1
  = dispatch_finish <$> allSettled (dispatch_tasks ctx specs invalidates evs c).
Proof.
  unfold dispatch, dispatch_tasks.
  by destruct (deliver_all ctx evs (dispatch_start ctx specs invalidates c)).
Qed.

(** While the pool has not settled some task, the call is waiting. *)
Lemma dispatch_waiting (ctx : Vitest) (specs : list WorkspaceSpec)
    (invalidates : list string) (evs : list PoolEvent) (c : Controller) (i : nat) :
  (i < task_count specs)%nat →
  first_settlement i evs = None →
  (dispatch ctx specs invalidates evs c).1 = None.
Proof.
  intros Hi Hnone. rewrite dispatch_fst.
  destruct (dispatch_tasks_lookup ctx specs invalidates evs c i Hi) as (t & Ht & Hr).
  rewrite Hnone in Hr. simpl in Hr.
  assert (allSettled (dispatch_tasks ctx specs invalidates evs c) = None) as ->; [|done].
  apply mapM_None. apply Exists_exists. exists t. split; [|done].
  by eapply list_elem_of_lookup_2.
Qed.

(** Once the pool has settled every task, the call completes, with the
    genuine errors of the tasks in their order. *)
Lemma dispatch_completes (ctx : Vitest) (specs : list WorkspaceSpec)
    (invalidates : list string) (evs : list PoolEvent) (c : Controller) :
  (∀ i, (i < task_count specs)%nat → is_Some (first_settlement i evs)) →
  (dispatch ctx specs invalidates evs c).1
  = Some (completion_of (genuine_errors (task_count specs) evs)).
Proof.
  intros Hall. rewrite dispatch_fst.
  pose proof (dispatch_tasks_length ctx specs invalidates evs c) as Hlen.
  pose proof (dispatch_tasks_lookup ctx specs invalidates evs c) as Hlook.
  revert Hlen Hlook Hall.
  generalize (dispatch_tasks ctx specs invalidates evs c) as tasks.
  generalize (task_count specs) as n.
  intros n tasks Hlen Hlook Hall.
  assert (Hrs : allSettled tasks
    = Some ((λ i, settlement_of
                    (classify (default (fulfilled, false) (first_settlement i evs)).1
                              (default (fulfilled, false) (first_settlement i evs)).2))
            <$> seq 0 n)).
  { apply mapM_Some. apply Forall2_same_length_lookup_2.
    - by rewrite length_fmap, length_seq.
    - intros i t r Ht Hr.
      assert (Hi : (i < n)%nat) by (rewrite <- Hlen; by eapply lookup_lt_Some).
      rewrite list_lookup_fmap, lookup_seq_lt in Hr by done. simpl in Hr.
      destruct (Hlook i Hi) as (t' & Ht' & Hres).
      rewrite Ht in Ht'. inversion Ht'; subst t'.
      destruct (Hall i Hi) as [s Hs]. rewrite Hs in *. simpl in *.
      congruence. }
  rewrite Hrs. simpl. f_equal. rewrite dispatch_finish_spec. f_equal.
  unfold genuine_errors. apply omap_fmap_agree.
  apply Forall_seq. intros i [_ Hi]. simpl in Hi.
  destruct (Hall i Hi) as [s Hs]. rewrite Hs. simpl.
  apply genuine_error_reason.
Qed.

Lemma dispatch_is_Some (ctx : Vitest) (specs : list WorkspaceSpec)
    (invalidates : list string) (evs : list PoolEvent) (c : Controller) :
  is_Some (dispatch ctx specs invalidates evs c).1
  ↔ ∀ i, (i < task_count specs)%nat → is_Some (first_settlement i evs).
Proof.
  split.
  - intros [r Hr] i Hi. destruct (first_settlement i evs) as [s|] eqn:Hs; [eauto|].
    rewrite (dispatch_waiting ctx specs invalidates evs c i Hi Hs) in Hr. done.
  - intros Hall. rewrite dispatch_completes by done. eauto.
Qed.

Lemma genuine_error_Some (s : Settlement * bool) (error : JsValue) :
  genuine_error s = Some error
  ↔ s.1 = rejected error
    ∧ error_matches terminate_pattern error = false
    ∧ s.2 && error_matches cancelled_pattern error = false.
Proof.
  destruct s as [[|e] b]; unfold genuine_error, classify; simpl.
  - split; [done | by intros [? _]].
  - destruct (error_matches terminate_pattern e) eqn:Ht.
    + split; [done|]. intros (Hr & Hf & _). inversion Hr; subst. congruence.
    + destruct (b && error_matches cancelled_pattern e) eqn:Hc.
      * split; [done|]. intros (Hr & _ & Hf). inversion Hr; subst. congruence.
      * split.
        { intros Heq. inversion Heq; subst. done. }
        { intros (Hr & _). by inversion Hr. }
Qed.

Lemma elem_of_genuine_errors (n : nat) (evs : list PoolEvent) (error : JsValue) :
  error ∈ genuine_errors n evs
  ↔ ∃ i s, (i < n)%nat ∧ first_settlement i evs = Some s
           ∧ genuine_error s = Some error.
Proof.
  unfold genuine_errors. rewrite list_elem_of_omap. split.
  - intros (i & Hi & He). apply elem_of_seq in Hi.
    destruct (first_settlement i evs) as [s|] eqn:Hs; [|done].
    exists i, s. split; [lia|]. done.
  - intros (i & s & Hi & Hs & He). exists i. split.
    + apply elem_of_seq. lia.
    + by rewrite Hs.
Qed.

Lemma completion_of_Threw (errs : list JsValue) (agg : AggregateError) :
  completion_of errs = Threw agg
  ↔ errs ≠ [] ∧ agg = {| errors := errs; aggregate_message := aggregate_text |}.
Proof.
  destruct errs as [|e errs]; simpl.
  - split; [done | by intros [? _]].
  - split; [intros [= <-]; done | intros [_ ->]; done].
Qed.



(** C10: a rejection that is not an [Error] instance is rethrown whatever
    its text and the cancellation flag are, and is among the errors of the
    aggregate the call throws. *)
Theorem non_error_rejection_is_genuine (ctx : Vitest) :
  (∀ (t : Task) (text : string) (isCancelling : bool) (c : Controller),
     runFiles_resume ctx t (rejected (NotAnError text)) isCancelling c
     = (rejected (NotAnError text), cleanup (task_emitter t) c))
  ∧ (∀ specs invalidates evs c i text isCancelling,
       (i < task_count specs)%nat →
       (∀ j, (j < task_count specs)%nat → is_Some (first_settlement j evs)) →
       first_settlement i evs = Some (rejected (NotAnError text), isCancelling) →
       ∃ agg, (dispatch ctx specs invalidates evs c).1 = Some (Threw agg)
              ∧ NotAnError text ∈ errors agg).
Proof.
  split.
  - intros t text b c. unfold runFiles_resume. simpl.
    by rewrite andb_false_r.
  - intros specs invalidates evs c i text b Hi Hall Hs.
    rewrite dispatch_completes by done.
    assert (He : NotAnError text ∈ genuine_errors (task_count specs) evs).
    { apply elem_of_genuine_errors. exists i, (rejected (NotAnError text), b).
      split; [done|]. split; [done|].
      apply genuine_error_Some. simpl. by rewrite andb_false_r. }
    destruct (genuine_errors (task_count specs) evs) as [|e errs] eqn:Heq;
      [by apply elem_of_nil in He|].
    simpl. eexists. split; [done|]. done.
Qed.

(** C2, as amended: for a rejection that is an [Error] whose message
    matches [The task has been cancelled] and does not match
    [Failed to terminate worker]: with the cancellation flag set the files
    are marked cancelled and the promise of the task fulfils, so that the
    rejection is no genuine error; with the flag not set the same
    rejection is rethrown and is a genuine error. *)
Theorem cancellation_classified (ctx : Vitest) (t : Task) (message : string)
    (c : Controller) :
  includes cancelled_pattern message = true →
  includes terminate_pattern message = false →
  runFiles_resume ctx t (rejected (ErrorInstance message)) true c
  = (fulfilled,
     cleanup (task_emitter t)
       (call_state
          (cancelFiles (rpc_files (task_data t)) (root (config ctx))
             (name (project_config (task_project t)))) c))
  ∧ runFiles_resume ctx t (rejected (ErrorInstance message)) false c
    = (rejected (ErrorInstance message), cleanup (task_emitter t) c)
  ∧ genuine_error (rejected (ErrorInstance message), true) = None
  ∧ genuine_error (rejected (ErrorInstance message), false)
    = Some (ErrorInstance message).
Proof.
  intros Hc Ht. unfold runFiles_resume, genuine_error, classify. simpl.
  rewrite Hc, Ht. done.
Qed.

(** ** The identifier counter *)

Lemma deliver_id (ctx : Vitest) (ev : PoolEvent) (tasks : list Task)
    (c : Controller) :
  id (deliver ctx ev (tasks, c)).2 = id c.
Proof.
  destruct ev as [i k|i o b]; simpl.
  - destruct (tasks !! i) as [t|]; [|done].
    destruct (task_result t); [done|]. simpl.
    unfold channel_onMessage, update_emitter.
    by destruct (emitters c !! task_emitter t).
  - destruct (tasks !! i) as [t|]; [|done].
    destruct (task_result t); [done|].
    pose proof (runFiles_resume_id ctx t o b c) as H.
    by destruct (runFiles_resume ctx t o b c).
Qed.

Lemma deliver_all_id (ctx : Vitest) (evs : list PoolEvent) (tasks : list Task)
    (c : Controller) :
  id (deliver_all ctx evs (tasks, c)).2 = id c.
Proof.
  revert tasks c. induction evs as [|ev evs IH]; intros tasks c; [done|].
  rewrite deliver_all_cons.
  pose proof (deliver_id ctx ev tasks c) as H.
  destruct (deliver ctx ev (tasks, c)) as [tasks1 c1].
  rewrite IH. done.
Qed.

(** C8, as amended: the counter belongs to the pool, not to a call of the
    dispatch function.  A call that finds the counter at [id c] hands out
    [id c + 1], [id c + 2], ... to its tasks, one more for each task, and
    leaves the counter at [id c] plus the number of its tasks, where the
    next call goes on; only a new pool starts from 0. *)
Theorem workerId_continues_across_calls (ctx : Vitest)
    (specs : list WorkspaceSpec) (invalidates : list string)
    (evs : list PoolEvent) (c : Controller) :
  assigned_ids ctx specs invalidates c = seq (S (id c)) (task_count specs)
  ∧ id (dispatch ctx specs invalidates evs c).2 = (id c + task_count specs)%nat
  ∧ id new_controller = 0%nat.
Proof.
  unfold assigned_ids, dispatch, dispatch_start, task_count.
  pose proof (start_all_spec ctx (concat (groupFilesByEnv specs).*2) invalidates
                ∅ (onCancel CancelPendingTasks c)) as (Hlen & Hid & _ & _ & Htasks).
  destruct (start_all ctx (concat (groupFilesByEnv specs).*2) invalidates ∅
              (onCancel CancelPendingTasks c)) as [tasks c1].
  simpl in *. split; [|split; [|done]].
  - apply list_eq. intros j. rewrite list_lookup_fmap.
    destruct (tasks !! j) as [t|] eqn:Ht; simpl.
    + destruct (Htasks j t Ht) as (_ & _ & Hw). rewrite Hw.
      symmetry. rewrite lookup_seq. split; [lia|].
      rewrite <- Hlen. by eapply lookup_lt_Some.
    + symmetry. apply lookup_seq_ge. rewrite <- Hlen. by apply lookup_ge_None.
  - pose proof (deliver_all_id ctx evs tasks c1) as H.
    destruct (deliver_all ctx evs (tasks, c1)) as [tasks2 c2].
    simpl in *. lia.
Qed.

(** ** Listeners of the channels *)

Lemma sum_list_zero (l : list nat) :
  sum_list l = 0%nat ↔ Forall (λ n, n = 0%nat) l.
Proof.
  induction l as [|x l IH]; simpl.
  - split; [constructor | done].
  - split.
    + intros H. constructor; [lia|]. apply IH. lia.
    + intros H. inversion H; subst. apply IH in H3. simpl. lia.
Qed.

Lemma registered_listeners_zero (c : Controller) :
  registered_listeners c = 0%nat
  ↔ ∀ k e, emitters c !! k = Some e → listenerCount e = 0%nat.
Proof.
  unfold registered_listeners. rewrite sum_list_zero, Forall_fmap, Forall_lookup.
  done.
Qed.

Lemma deliver_channels (base : nat) (ctx : Vitest) (ev : PoolEvent)
    (tasks : list Task) (c : Controller) :
  channels_released base tasks c →
  channels_released base (deliver ctx ev (tasks, c)).1 (deliver ctx ev (tasks, c)).2.
Proof.
  intros (Hlen & Hold & Htasks).
  destruct ev as [i k|i o b]; simpl.
  - destruct (tasks !! i) as [t|] eqn:Hi; [|done].
    destruct (task_result t) eqn:Hr; [done|]. simpl.
    destruct (Htasks i t Hi) as (Hem & _).
    unfold channel_onMessage. split; [|split].
    + by rewrite update_emitter_length.
    + intros k' e Hk. rewrite update_emitter_lookup.
      case_decide; [lia|]. by apply Hold.
    + intros j tj Hj. destruct (Htasks j tj Hj) as (Hemj & Hrel).
      split; [done|]. intros Hsome e. rewrite update_emitter_lookup.
      case_decide as Heq; [|by apply Hrel].
      assert (j = i) by lia. subst j.
      rewrite Hi in Hj. inversion Hj; subst tj.
      rewrite Hr in Hsome. by destruct Hsome.
  - destruct (tasks !! i) as [t|] eqn:Hi; [|done].
    destruct (task_result t) eqn:Hr; [done|].
    destruct (Htasks i t Hi) as (Hem & _).
    pose proof (runFiles_resume_emitters ctx t o b c) as Hems.
    destruct (runFiles_resume ctx t o b c) as [r c']. simpl in *.
    unfold cleanup in Hems. split; [|split].
    + by rewrite length_insert, Hems, update_emitter_length.
    + intros k' e Hk. rewrite Hems, update_emitter_lookup.
      case_decide; [lia|]. by apply Hold.
    + intros j tj Hj. rewrite Hems.
      destruct (decide (j = i)) as [->|Hne].
      * rewrite list_lookup_insert_eq in Hj by (by eapply lookup_lt_Some).
        inversion Hj; subst tj. simpl. split; [done|].
        intros _ e. rewrite update_emitter_lookup, Hem.
        rewrite decide_True by done.
        destruct (emitters c !! (base + i)%nat); simpl; [|done].
        intros [= <-]. apply listenerCount_empty.
      * rewrite list_lookup_insert_ne in Hj by done.
        destruct (Htasks j tj Hj) as (Hemj & Hrel).
        split; [done|]. intros Hsome e. rewrite update_emitter_lookup.
        case_decide; [lia|]. by apply Hrel.
Qed.

Lemma deliver_all_channels (base : nat) (ctx : Vitest) (evs : list PoolEvent)
    (tasks : list Task) (c : Controller) :
  channels_released base tasks c →
  channels_released base (deliver_all ctx evs (tasks, c)).1
    (deliver_all ctx evs (tasks, c)).2.
Proof.
  revert tasks c. induction evs as [|ev evs IH]; intros tasks c H; [done|].
  rewrite deliver_all_cons.
  pose proof (deliver_channels base ctx ev tasks c H) as H1.
  destruct (deliver ctx ev (tasks, c)) as [tasks1 c1].
  by apply IH.
Qed.

Lemma dispatch_start_channels (ctx : Vitest) (specs : list WorkspaceSpec)
    (invalidates : list string) (c : Controller) :
  registered_listeners c = 0%nat →
  channels_released (length (emitters c))
    (dispatch_start ctx specs invalidates c).1
    (dispatch_start ctx specs invalidates c).2.
Proof.
  intros Hz. unfold dispatch_start.
  pose proof (start_all_spec ctx (concat (groupFilesByEnv specs).*2) invalidates
                ∅ (onCancel CancelPendingTasks c)) as (Hlen & _ & Hlen2 & Hold & Htasks).
  destruct (start_all ctx (concat (groupFilesByEnv specs).*2) invalidates ∅
              (onCancel CancelPendingTasks c)) as [tasks c1].
  simpl in *. split; [lia|]. split.
  - intros k e Hk. rewrite Hold by done.
    by apply (proj1 (registered_listeners_zero c)).
  - intros j t Hj. destruct (Htasks j t Hj) as (Hr & Hem & _).
    split; [done|]. rewrite Hr. by intros [].
Qed.

Lemma channels_all_settled (base : nat) (tasks : list Task) (c : Controller) :
  channels_released base tasks c →
  is_Some (allSettled tasks) →
  registered_listeners c = 0%nat.
Proof.
  intros (Hlen & Hold & Htasks) Hall.
  apply mapM_is_Some in Hall. rewrite Forall_lookup in Hall.
  apply registered_listeners_zero. intros k e Hk.
  destruct (decide (k < base)%nat) as [Hlt|Hge]; [by eapply Hold|].
  assert (Hk' : (k < length (emitters c))%nat) by (by eapply lookup_lt_Some).
  destruct (lookup_lt_is_Some_2 tasks (k - base)) as [t Ht]; [lia|].
  destruct (Htasks _ t Ht) as (_ & Hrel).
  apply (Hrel (Hall _ t Ht)).
  replace (base + (k - base))%nat with k by lia. done.
Qed.

Lemma dispatch_listeners (ctx : Vitest) (specs : list WorkspaceSpec)
    (invalidates : list string) (evs : list PoolEvent) (c : Controller) :
  registered_listeners c = 0%nat →
  is_Some (dispatch ctx specs invalidates evs c).1 →
  registered_listeners (dispatch ctx specs invalidates evs c).2 = 0%nat.
Proof.
  intros Hz Hsome. unfold dispatch in *.
  pose proof (dispatch_start_channels ctx specs invalidates c Hz) as Hstart.
  destruct (dispatch_start ctx specs invalidates c) as [tasks c1]. simpl in Hstart.
  pose proof (deliver_all_channels _ ctx evs tasks c1 Hstart) as Hend.
  destruct (deliver_all ctx evs (tasks, c1)) as [tasks2 c2]. simpl in *.
  apply (channels_all_settled _ tasks2 c2 Hend).
  by apply fmap_is_Some in Hsome.
Qed.

(** C7: whatever the outcome and the cancellation flag, [runFiles] ends
    with the cleanup of its channel, after which the emitter of the channel
    has no listener; after any sequence of calls of the dispatch function
    that have all completed, starting without listeners, no listener is
    registered on the emitter of any channel. *)
Theorem channel_listeners_released (ctx : Vitest) :
  (∀ (t : Task) (outcome : Settlement) (isCancelling : bool) (c : Controller),
     is_Some (emitters c !! task_emitter t) →
     let c' := (runFiles_resume ctx t outcome isCancelling c).2 in
     emitters c' = emitters (cleanup (task_emitter t) c)
     ∧ ∃ e, emitters c' !! task_emitter t = Some e ∧ listenerCount e = 0%nat)
  ∧ (∀ (calls : list DispatchCall) (c : Controller),
       registered_listeners c = 0%nat →
       Forall is_Some (dispatch_seq ctx calls c).1 →
       registered_listeners (dispatch_seq ctx calls c).2 = 0%nat).
Proof.
  split.
  - intros t outcome b c [e He] c'. subst c'.
    rewrite runFiles_resume_emitters. split; [done|].
    exists ∅. unfold cleanup. rewrite update_emitter_lookup, decide_True by done.
    rewrite He. split; [done | apply listenerCount_empty].
  - intros calls. induction calls as [|[[specs invalidates] evs] calls IH];
      intros c Hz Hall; [done|].
    cbn [dispatch_seq] in *.
    pose proof (dispatch_listeners ctx specs invalidates evs c Hz) as Hd.
    destruct (dispatch ctx specs invalidates evs c) as [r c1].
    specialize (IH c1).
    destruct (dispatch_seq ctx calls c1) as [rs c2]. simpl in *.
    inversion Hall; subst. apply IH; [|done]. by apply Hd.
Qed.

(** * Further properties of the code *)

(** ** Matching a message *)

Lemma prefix_app (p s : string) :
  String.prefix p s = true ↔ ∃ b, s = p +:+ b.
Proof.
  revert s. induction p as [|a p IH]; intros s.
  - split; [|by destruct s]. intros _. by exists s.
  - destruct s as [|b s]; simpl.
    + split; [done | by intros [? ?]].
    + destruct (ascii_dec a b) as [->|Hne].
      * rewrite IH. split; intros [x Hx]; exists x; [by rewrite Hx | by injection Hx].
      * split; [done|]. intros [x Hx]. injection Hx as Hab _. done.
Qed.

(** X1: the test [/pattern/.test(message)] of the two classification
    branches looks for the pattern anywhere in the message: it succeeds
    exactly when the message is some text, the pattern, and some text. *)
Theorem includes_anywhere (pattern s : string) :
  includes pattern s = true ↔ ∃ a b, s = a +:+ pattern +:+ b.
Proof.
  induction s as [|c s IH].
  - cbn [includes]. rewrite prefix_app. split.
    + intros [b Hb]. by exists EmptyString, b.
    + intros (a & b & Hab). destruct a; [|done]. by exists b.
  - cbn [includes]. rewrite orb_true_iff, prefix_app, IH. split.
    + intros [[b Hb] | (a & b & Hab)].
      * by exists EmptyString, b.
      * exists (String c a), b. simpl. by rewrite Hab.
    + intros (a & b & Hab). destruct a as [|c' a].
      * left. by exists b.
      * right. exists a, b. simpl in Hab. by injection Hab.
Qed.

(** ** Pattern values *)

(** X2: serialized regular expressions with the same result have the same
    textual form, and a plain string that does not begin with the marker is
    never taken for one; but the plain string made of the marker and the
    textual form of a regular expression serializes to the same string as
    that regular expression. *)
Theorem stringifyRegex_collisions :
  (∀ r1 r2 : RegExp,
     stringifyRegex (PatRegExp r1) = stringifyRegex (PatRegExp r2) →
     RegExp_toString r1 = RegExp_toString r2)
  ∧ (∀ (s : string) (r : RegExp),
       String.prefix vitest_marker s = false →
       stringifyRegex (PatString s) ≠ stringifyRegex (PatRegExp r))
  ∧ (∀ r : RegExp,
       stringifyRegex (PatString (vitest_marker +:+ RegExp_toString r))
       = stringifyRegex (PatRegExp r)).
Proof.
  split; [|split].
  - intros r1 r2 H. unfold stringifyRegex in H.
    revert H. generalize (RegExp_toString r1) (RegExp_toString r2).
    intros t1 t2 H. by injection H.
  - intros s r Hs Heq. simpl in Heq.
    assert (String.prefix vitest_marker s = true); [|congruence].
    apply prefix_app. eauto.
  - done.
Qed.

(** X3: [getConfig] hands a cached snapshot back without looking at the
    project again, caches what it builds, and answers a second request
    with the same snapshot; a [testNamePattern] that is absent or the
    empty string is sent as [undefined]. *)
Theorem getConfig_memo (project : WorkspaceProject)
    (configs : gmap nat SerializedConfig) :
  (∀ cached, configs !! project_key project = Some cached →
     getConfig project configs = (cached, configs))
  ∧ (configs !! project_key project = None →
     getConfig project configs
     = (serialize_config (getSerializableConfig project),
        <[project_key project := serialize_config (getSerializableConfig project)]>
          configs))
  ∧ getConfig project (getConfig project configs).2
    = ((getConfig project configs).1, (getConfig project configs).2)
  ∧ (configs !! project_key project = None →
     testNamePattern (getSerializableConfig project) = None
     ∨ testNamePattern (getSerializableConfig project) = Some (PatString EmptyString) →
     ser_testNamePattern (getConfig project configs).1 = None).
Proof.
  unfold getConfig.
  destruct (configs !! project_key project) as [cached|] eqn:Hc.
  - split; [by intros ? [= ->]|]. split; [done|]. split; [|done].
    simpl. by rewrite Hc.
  - split; [done|]. split; [done|]. split.
    + simpl. by rewrite lookup_insert_eq.
    + intros _ [H|H]; simpl; by rewrite H.
Qed.

(** ** Pool sizing with overrides *)

Lemma div2_bounds (u : Z) : 2 * (u / 2) ≤ u < 2 * (u / 2) + 2.
Proof.
  pose proof (Z.div_mod u 2). pose proof (Z.mod_pos_bound u 2). lia.
Qed.

(** X4: whatever the host reports, also zero or a negative number of
    processing units, the default worker count is at least 1, and the count
    of watch mode never exceeds the count of run mode. *)
Theorem threadsCount_watch_le_run (os : NodeOs) (watching running : Vitest) :
  watch (config watching) = true →
  watch (config running) = false →
  1 ≤ threadsCount os watching ≤ threadsCount os running.
Proof.
  intros Hw Hr. unfold threadsCount. rewrite Hw, Hr.
  pose proof (div2_bounds (numCpus os)). lia.
Qed.

(** X5: when several workers are allowed, [maxForks] sets both bounds,
    whatever [maxWorkers] and [minWorkers] say, and is taken as it is,
    zero included; without [maxForks], [maxWorkers] replaces the default of
    the upper bound only and [minWorkers] that of the lower bound only. *)
Theorem worker_override_precedence (os : NodeOs) (ctx : Vitest)
    (execArgv0 : list string) (env0 : gmap string string) :
  default false (singleFork (vmForksOptions ctx)) = false →
  fileParallelism (config ctx) = true →
  let options := tinypoolOptions os ctx execArgv0 env0 in
  (∀ m, maxForks (vmForksOptions ctx) = Some m →
     maxThreads options = m ∧ minThreads options = m)
  ∧ (maxForks (vmForksOptions ctx) = None →
     maxThreads options = default (threadsCount os ctx) (maxWorkers (config ctx))
     ∧ minThreads options = default (threadsCount os ctx) (minWorkers (config ctx))).
Proof.
  intros Hs Hp options. subst options. unfold tinypoolOptions.
  rewrite Hs, Hp. simpl. split.
  - by intros m ->.
  - by intros ->.
Qed.

(** X6: the bounds are not reconciled: with only [maxWorkers] given, below
    the default count, the pool is built with a lower bound above its upper
    bound. *)
Theorem worker_bounds_not_clamped (os : NodeOs) (ctx : Vitest)
    (execArgv0 : list string) (env0 : gmap string string) (m : Z) :
  default false (singleFork (vmForksOptions ctx)) = false →
  fileParallelism (config ctx) = true →
  maxForks (vmForksOptions ctx) = None →
  minWorkers (config ctx) = None →
  maxWorkers (config ctx) = Some m →
  m < threadsCount os ctx →
  let options := tinypoolOptions os ctx execArgv0 env0 in
  maxThreads options = m
  ∧ minThreads options = threadsCount os ctx
  ∧ maxThreads options < minThreads options.
Proof.
  intros Hs Hp Hf Hmin Hmax Hlt options. subst options. unfold tinypoolOptions.
  rewrite Hs, Hp, Hf, Hmin, Hmax. simpl. done.
Qed.

(** X7: the recycle threshold handed to the pool is never zero: a
    ceiling of zero, like no ceiling, leaves the threshold undefined, and
    any other ceiling is handed over unchanged, in single-fork mode too. *)
Theorem recycle_threshold_never_zero (os : NodeOs) (ctx : Vitest)
    (execArgv0 : list string) (env0 : gmap string string) :
  let threshold :=
    maxMemoryLimitBeforeRecycle (tinypoolOptions os ctx execArgv0 env0) in
  (∀ q, threshold = Some q →
     ¬ (q == 0)%Q ∧ getMemoryLimit os (config ctx) = Some q)
  ∧ (threshold = None
     ↔ getMemoryLimit os (config ctx) = None
       ∨ ∃ q, getMemoryLimit os (config ctx) = Some q ∧ (q == 0)%Q).
Proof.
  intros threshold.
  assert (Ht : threshold = or_undefined (getMemoryLimit os (config ctx))).
  { subst threshold. unfold tinypoolOptions.
    by destruct (default false (singleFork (vmForksOptions ctx))
                 || negb (fileParallelism (config ctx))). }
  rewrite Ht. unfold or_undefined.
  destruct (getMemoryLimit os (config ctx)) as [q|].
  - destruct (Qeq_bool q 0) eqn:E.
    + apply Qeq_bool_iff in E. split; [done|]. split; [eauto|done].
    + apply Qeq_bool_neq in E. split.
      * intros q' [= <-]. done.
      * split; [done|]. intros [?|(q' & [= <-] & ?)]; done.
  - split; [done|]. split; [by left|done].
Qed.


(** ** What a call starts *)

Lemma runFiles_start_eq (ctx : Vitest) (u : FileUnit) (config : SerializedConfig)
    (invalidates : list string) (c : Controller) :
  runFiles_start ctx (project u) config [file u] (environment u) invalidates c
  = (started_task ctx invalidates config u (S (id c)) (length (emitters c)),
     {| id := S (id c);
        state_calls := state_calls c ++ [clearFiles (getName (project u)) [file u]];
        cancel_listeners := cancel_listeners c ++ [RpcOnCancel (length (emitters c))];
        emitters := emitters c ++ [fresh_channel];
        submitted :=
          submitted c
          ++ [task_data (started_task ctx invalidates config u (S (id c))
                           (length (emitters c)))] |}).
Proof. unfold runFiles_start. by rewrite createChildProcessChannel_spec. Qed.

Lemma first_unit_of_cons (key : nat) (u : FileUnit) (units : list FileUnit) :
  first_unit_of key (u :: units)
  = if decide (project_key (project u) = key) then Some u
    else first_unit_of key units.
Proof.
  unfold first_unit_of. cbn [list_find]. case_decide; [done|].
  by destruct (list_find _ units) as [[? ?]|].
Qed.

Lemma getConfig_memo_config (u : FileUnit) (units : list FileUnit)
    (configs : gmap nat SerializedConfig) :
  (getConfig (project u) configs).1 = memo_config configs (u :: units) u
  ∧ ∀ u', memo_config (getConfig (project u) configs).2 units u'
          = memo_config configs (u :: units) u'.
Proof.
  unfold getConfig, memo_config.
  destruct (configs !! project_key (project u)) as [cached|] eqn:Hc; simpl.
  - split; [done|]. intros u'.
    destruct (configs !! project_key (project u')) eqn:Hc'; [done|].
    rewrite first_unit_of_cons. case_decide as Hk; [congruence | done].
  - split; [by rewrite first_unit_of_cons, decide_True|].
    intros u'. rewrite first_unit_of_cons.
    destruct (decide (project_key (project u) = project_key (project u'))) as [Hk|Hk].
    + rewrite <- Hk, lookup_insert_eq, Hc. done.
    + rewrite lookup_insert_ne by done. done.
Qed.

(** The start phase, in closed form. *)
Lemma start_all_eq (ctx : Vitest) (units : list FileUnit)
    (invalidates : list string) (configs : gmap nat SerializedConfig)
    (c : Controller) :
  start_all ctx units invalidates configs c
  = (started_tasks ctx invalidates configs units (id c) (length (emitters c)),
     {| id := id c + length units;
        state_calls := state_calls c ++ clear_calls units;
        cancel_listeners :=
          cancel_listeners c
          ++ (RpcOnCancel <$> seq (length (emitters c)) (length units));
        emitters := emitters c ++ replicate (length units) fresh_channel;
        submitted :=
          submitted c
          ++ (task_data
              <$> started_tasks ctx invalidates configs units (id c)
                    (length (emitters c))) |}).
Proof.
  revert configs c. induction units as [|u units IH]; intros configs c.
  - destruct c. simpl. unfold started_tasks, clear_calls. simpl.
    by rewrite Nat.add_0_r, !app_nil_r.
  - cbn [start_all].
    destruct (getConfig_memo_config u units configs) as [Hcfg Hrest].
    destruct (getConfig (project u) configs) as [config configs'].
    cbn [fst snd] in Hcfg, Hrest.
    rewrite runFiles_start_eq, IH. cbn [id state_calls cancel_listeners emitters submitted].
    assert (Htasks :
      started_tasks ctx invalidates configs (u :: units) (id c) (length (emitters c))
      = started_task ctx invalidates config u (S (id c)) (length (emitters c))
        :: started_tasks ctx invalidates configs' units (S (id c))
             (length (emitters c ++ [fresh_channel]))).
    { unfold started_tasks. cbn [imap]. rewrite Hcfg, Nat.add_0_r, Nat.add_1_r.
      f_equal. apply imap_ext. intros j u' _. simpl.
      rewrite Hrest, length_app. simpl.
      f_equal; lia. }
    rewrite Htasks. f_equal. f_equal.
    + simpl. lia.
    + unfold clear_calls. by rewrite <- app_assoc.
    + rewrite <- app_assoc, length_app. simpl. by rewrite Nat.add_1_r.
    + by rewrite <- app_assoc.
    + by rewrite <- app_assoc.
Qed.

Lemma dispatch_start_eq (ctx : Vitest) (specs : list WorkspaceSpec)
    (invalidates : list string) (c : Controller) :
  dispatch_start ctx specs invalidates c
  = (started_tasks ctx invalidates ∅ (units_of specs) (id c) (length (emitters c)),
     {| id := id c + task_count specs;
        state_calls := state_calls c ++ clear_calls (units_of specs);
        cancel_listeners :=
          cancel_listeners c
          ++ CancelPendingTasks
             :: (RpcOnCancel <$> seq (length (emitters c)) (task_count specs));
        emitters := emitters c ++ replicate (task_count specs) fresh_channel;
        submitted :=
          submitted c
          ++ (task_data
              <$> started_tasks ctx invalidates ∅ (units_of specs) (id c)
                    (length (emitters c))) |}).
Proof.
  unfold dispatch_start. rewrite start_all_eq. simpl.
  unfold task_count, units_of. by rewrite <- app_assoc.
Qed.

Lemma started_tasks_lookup (ctx : Vitest) (invalidates : list string)
    (configs : gmap nat SerializedConfig) (units : list FileUnit)
    (id0 base j : nat) :
  started_tasks ctx invalidates configs units id0 base !! j
  = (λ u, started_task ctx invalidates (memo_config configs units u) u
            (id0 + S j) (base + j)) <$> units !! j.
Proof. unfold started_tasks. by rewrite list_lookup_imap. Qed.


(** ** What the events leave alone *)

Lemma runFiles_resume_frame (ctx : Vitest) (t : Task) (outcome : Settlement)
    (isCancelling : bool) (c : Controller) :
  let c' := (runFiles_resume ctx t outcome isCancelling c).2 in
  cancel_listeners c' = cancel_listeners c
  ∧ submitted c' = submitted c
  ∧ state_calls c' = state_calls c ++ record_of ctx t (classify outcome isCancelling).
Proof.
  unfold runFiles_resume, classify, cleanup, update_emitter.
  destruct outcome as [|error]; simpl.
  - destruct (emitters c !! task_emitter t); simpl; by rewrite app_nil_r.
  - destruct (error_matches terminate_pattern error); simpl;
      [|destruct (isCancelling && error_matches cancelled_pattern error); simpl];
      destruct (emitters c !! task_emitter t); simpl; by rewrite ?app_nil_r.
Qed.

Lemma deliver_OnMessage (ctx : Vitest) (j k : nat) (tasks : list Task)
    (c : Controller) :
  let st := deliver ctx (OnMessage j k) (tasks, c) in
  st.1 = tasks
  ∧ state_calls st.2 = state_calls c
  ∧ cancel_listeners st.2 = cancel_listeners c
  ∧ submitted st.2 = submitted c.
Proof.
  simpl. destruct (tasks !! j) as [t|]; [|done].
  destruct (task_result t); [done|]. simpl.
  unfold channel_onMessage, update_emitter.
  by destruct (emitters c !! task_emitter t).
Qed.

(** An event that settles a running task. *)
Lemma deliver_Settles (ctx : Vitest) (j : nat) (outcome : Settlement)
    (isCancelling : bool) (tasks : list Task) (c : Controller) (t : Task) :
  tasks !! j = Some t →
  task_result t = None →
  deliver ctx (Settles j outcome isCancelling) (tasks, c)
  = (<[j := settle_task (settlement_of (classify outcome isCancelling)) t]> tasks,
     (runFiles_resume ctx t outcome isCancelling c).2).
Proof.
  intros Hj Hr. simpl. rewrite Hj, Hr.
  pose proof (runFiles_resume_result ctx t outcome isCancelling c) as H.
  destruct (runFiles_resume ctx t outcome isCancelling c) as [r c']. simpl in *.
  by rewrite H.
Qed.

(** An event for a task that has settled, or for no task. *)
Lemma deliver_Settles_ignored (ctx : Vitest) (j : nat) (outcome : Settlement)
    (isCancelling : bool) (tasks : list Task) (c : Controller) :
  (∀ t, tasks !! j = Some t → task_result t ≠ None) →
  deliver ctx (Settles j outcome isCancelling) (tasks, c) = (tasks, c).
Proof.
  intros H. simpl. destruct (tasks !! j) as [t|] eqn:Hj; [|done].
  destruct (task_result t) eqn:Hr; [done|]. by destruct (H t eq_refl).
Qed.

Lemma deliver_all_frame (ctx : Vitest) (evs : list PoolEvent) (tasks : list Task)
    (c : Controller) :
  let st := deliver_all ctx evs (tasks, c) in
  cancel_listeners st.2 = cancel_listeners c ∧ submitted st.2 = submitted c.
Proof.
  revert tasks c. induction evs as [|ev evs IH]; intros tasks c; [done|].
  rewrite deliver_all_cons.
  assert (cancel_listeners (deliver ctx ev (tasks, c)).2 = cancel_listeners c
          ∧ submitted (deliver ctx ev (tasks, c)).2 = submitted c) as [H1 H2].
  { destruct ev as [j k|j o b].
    - by destruct (deliver_OnMessage ctx j k tasks c) as (_ & _ & ? & ?).
    - destruct (tasks !! j) as [t|] eqn:Hj.
      + destruct (task_result t) eqn:Hr.
        * rewrite deliver_Settles_ignored; [done|]. intros t' ? ?. congruence.
        * rewrite (deliver_Settles ctx j o b tasks c t) by done.
          by destruct (runFiles_resume_frame ctx t o b c) as (? & ? & _).
      + rewrite deliver_Settles_ignored; [done|]. intros t' ?. congruence. }
  destruct (deliver ctx ev (tasks, c)) as [tasks1 c1]. simpl in *.
  destruct (IH tasks1 c1) as [H3 H4]. split; congruence.
Qed.

Lemma deliver_all_project (ctx : Vitest) (evs : list PoolEvent)
    (tasks : list Task) (c : Controller) (i : nat) (t t' : Task) :
  tasks !! i = Some t →
  (deliver_all ctx evs (tasks, c)).1 !! i = Some t' →
  task_project t' = task_project t.
Proof.
  revert tasks c t. induction evs as [|ev evs IH]; intros tasks c t Hi Hi'.
  - simpl in Hi'. congruence.
  - rewrite deliver_all_cons in Hi'.
    assert (∃ t1, (deliver ctx ev (tasks, c)).1 !! i = Some t1
                  ∧ task_project t1 = task_project t) as (t1 & H1 & Hp).
    { destruct ev as [j k|j o b].
      - destruct (deliver_OnMessage ctx j k tasks c) as (-> & _). eauto.
      - destruct (tasks !! j) as [tj|] eqn:Hj.
        + destruct (task_result tj) eqn:Hr.
          * rewrite deliver_Settles_ignored; [eauto|]. intros ? ? ?. congruence.
          * rewrite (deliver_Settles ctx j o b tasks c tj) by done. simpl.
            destruct (decide (i = j)) as [->|Hne].
            { rewrite list_lookup_insert_eq by (by eapply lookup_lt_Some).
              eexists. split; [done|]. simpl. congruence. }
            { rewrite list_lookup_insert_ne by done. eauto. }
        + rewrite deliver_Settles_ignored; [eauto|]. intros ? ?. congruence. }
    destruct (deliver ctx ev (tasks, c)) as [tasks1 c1]. simpl in H1.
    rewrite <- Hp. by eapply IH.
Qed.

Lemma dispatch_snd (ctx : Vitest) (specs : list WorkspaceSpec)
    (invalidates : list string) (evs : list PoolEvent) (c : Controller) :
  (dispatch ctx specs invalidates evs c).2
  = (deliver_all ctx evs (dispatch_start ctx specs invalidates c)).2.
Proof.
  unfold dispatch.
  by destruct (deliver_all ctx evs (dispatch_start ctx specs invalidates c)).
Qed.


(** ** A call of the dispatch function, as a whole *)

Lemma units_of_length (specs : list WorkspaceSpec) :
  length (units_of specs) = task_count specs.
Proof. done. Qed.

(** The task of unit [j] during a call: what it was started with. *)
Lemma dispatch_tasks_started (ctx : Vitest) (specs : list WorkspaceSpec)
    (invalidates : list string) (evs : list PoolEvent) (c : Controller)
    (j : nat) (u : FileUnit) :
  units_of specs !! j = Some u →
  ∃ t, dispatch_tasks ctx specs invalidates evs c !! j = Some t
    ∧ task_data t
      = task_data (started_task ctx invalidates (memo_config ∅ (units_of specs) u) u
                     (id c + S j) (length (emitters c) + j))
    ∧ task_project t = project u
    ∧ task_emitter t = (length (emitters c) + j)%nat
    ∧ task_result t
      = (λ s, settlement_of (classify s.1 s.2)) <$> first_settlement j evs.
Proof.
  intros Hu. unfold dispatch_tasks.
  pose proof (dispatch_start_eq ctx specs invalidates c) as Heq.
  destruct (dispatch_start ctx specs invalidates c) as [tasks c1].
  injection Heq as Htasks _.
  assert (Ht : tasks !! j
               = Some (started_task ctx invalidates (memo_config ∅ (units_of specs) u)
                         u (id c + S j) (length (emitters c) + j))).
  { subst tasks. by rewrite started_tasks_lookup, Hu. }
  destruct (deliver_all_lookup ctx evs tasks c1 j _ Ht) as (t & H1 & H2 & H3 & H4).
  exists t. split; [exact H1|]. rewrite H2, H3, H4.
  rewrite (deliver_all_project ctx evs tasks c1 j _ t Ht H1). done.
Qed.

Lemma mjoin_insert_nil {A : Type} (L : list (list A)) (j : nat) (x : list A) :
  L !! j = Some x → mjoin L ≡ₚ x ++ mjoin (<[j := []]> L).
Proof.
  revert j. induction L as [|x0 L IH]; intros j Hj; [done|].
  destruct j as [|j]; simpl in *.
  - by injection Hj as ->.
  - rewrite (IH j Hj) at 1. apply Permutation_app_swap_app.
Qed.

Lemma pending_records_skip (ctx : Vitest) (ev : PoolEvent) (evs : list PoolEvent)
    (tasks : list Task) :
  (∀ i t, tasks !! i = Some t → task_result t = None →
          first_settlement i (ev :: evs) = first_settlement i evs) →
  pending_records ctx (ev :: evs) tasks = pending_records ctx evs tasks.
Proof.
  intros H. unfold pending_records. apply imap_ext. intros i t Hi.
  destruct (task_result t) eqn:Hr; [done|]. by rewrite (H i t Hi Hr).
Qed.

(** The calls on [ctx.state] after the events: those made before, then one
    record list for each running task the events settle, each once. *)
Lemma deliver_all_records (ctx : Vitest) (evs : list PoolEvent)
    (tasks : list Task) (c : Controller) :
  ∃ records,
    state_calls (deliver_all ctx evs (tasks, c)).2 = state_calls c ++ records
    ∧ records ≡ₚ mjoin (pending_records ctx evs tasks).
Proof.
  revert tasks c. induction evs as [|ev evs IH]; intros tasks c.
  - exists []. split; [by rewrite app_nil_r|].
    assert (mjoin (pending_records ctx [] tasks) = []) as ->; [|done].
    apply join_nil_2, Forall_lookup. intros i x Hx.
    unfold pending_records in Hx. rewrite list_lookup_imap in Hx.
    destruct (tasks !! i) as [t|]; [|done]. injection Hx as <-.
    by destruct (task_result t).
  - rewrite deliver_all_cons. destruct ev as [j k|j o b].
    + destruct (deliver_OnMessage ctx j k tasks c) as (Ht & Hs & _).
      destruct (deliver ctx (OnMessage j k) (tasks, c)) as [tasks1 c1].
      simpl in Ht, Hs. subst tasks1.
      destruct (IH tasks c1) as (records & Hcalls & Hperm).
      exists records. rewrite Hcalls, Hs. split; [done|].
      by rewrite pending_records_skip.
    + assert (Hcase : (∃ t, tasks !! j = Some t ∧ task_result t = None)
                      ∨ ∀ t, tasks !! j = Some t → task_result t ≠ None).
      { destruct (tasks !! j) as [t|]; [|by right].
        destruct (task_result t) eqn:Hr; [right | left; eauto].
        intros ? ? ?. congruence. }
      destruct Hcase as [(t & Hj & Hr) | Hign].
      * rewrite (deliver_Settles ctx j o b tasks c t) by done.
        destruct (IH (<[j := settle_task (settlement_of (classify o b)) t]> tasks)
                    (runFiles_resume ctx t o b c).2) as (records & Hcalls & Hperm).
        destruct (runFiles_resume_frame ctx t o b c) as (_ & _ & Hrec).
        exists (record_of ctx t (classify o b) ++ records).
        rewrite Hcalls, Hrec, <- app_assoc. split; [done|].
        rewrite (mjoin_insert_nil (pending_records ctx (Settles j o b :: evs) tasks) j
                   (record_of ctx t (classify o b))).
        2:{ unfold pending_records. rewrite list_lookup_imap, Hj. simpl.
            by rewrite Hr, decide_True. }
        apply Permutation_app_head. rewrite Hperm.
        assert (pending_records ctx evs
                  (<[j := settle_task (settlement_of (classify o b)) t]> tasks)
                = <[j := []]> (pending_records ctx (Settles j o b :: evs) tasks))
          as ->; [|done].
        apply list_eq. intros i. unfold pending_records.
        destruct (decide (i = j)) as [->|Hne].
        { rewrite list_lookup_insert_eq
            by (rewrite length_imap; by eapply lookup_lt_Some).
          rewrite list_lookup_imap, list_lookup_insert_eq
            by (by eapply lookup_lt_Some).
          done. }
        { rewrite list_lookup_insert_ne by done.
          rewrite !list_lookup_imap, list_lookup_insert_ne by done.
          destruct (tasks !! i) as [ti|]; [|done]. simpl.
          by rewrite decide_False. }
      * rewrite deliver_Settles_ignored by done.
        destruct (IH tasks c) as (records & Hcalls & Hperm).
        exists records. split; [done|].
        rewrite pending_records_skip; [done|].
        intros i t Hi Hr. simpl. rewrite decide_False; [done|].
        intros ->. by eapply Hign.
Qed.

Lemma pending_records_started (ctx : Vitest) (invalidates : list string)
    (configs : gmap nat SerializedConfig) (units : list FileUnit)
    (id0 base : nat) (evs : list PoolEvent) :
  pending_records ctx evs (started_tasks ctx invalidates configs units id0 base)
  = imap (λ i u, unit_record ctx u (first_settlement i evs)) units.
Proof.
  apply list_eq. intros i. unfold pending_records.
  rewrite !list_lookup_imap, started_tasks_lookup.
  destruct (units !! i) as [u|]; [|done]. simpl.
  destruct (first_settlement i evs) as [[o b]|]; [|done]. simpl.
  by destruct (classify o b).
Qed.

(** X8: the calls a call of the dispatch function adds to [ctx.state]
    are, first, [clearFiles] for every unit, in the order of the units and
    whatever happens to the tasks, and then, in some order, for each task
    whose rejection is a termination timeout exactly one timeout cause
    naming its file, for each task whose rejection is an intentional
    cancellation exactly one [cancelFiles], and nothing else: a task that
    fulfils, fails with a genuine error or is still running adds nothing.
    A rejection that arrives while [ctx.isCancelling] is not set never
    counts as an intentional cancellation. *)
Theorem dispatch_state_accounting (ctx : Vitest) (specs : list WorkspaceSpec)
    (invalidates : list string) (evs : list PoolEvent) (c : Controller) :
  (∃ records,
     state_calls (dispatch ctx specs invalidates evs c).2
     = state_calls c ++ clear_calls (units_of specs) ++ records
     ∧ records
       ≡ₚ mjoin (imap (λ i u, unit_record ctx u (first_settlement i evs))
                   (units_of specs)))
  ∧ (∀ outcome, classify outcome false ≠ IntentionalCancellation).
Proof.
  split.
  - rewrite dispatch_snd.
    pose proof (dispatch_start_eq ctx specs invalidates c) as Heq.
    destruct (dispatch_start ctx specs invalidates c) as [tasks c1].
    injection Heq as Htasks Hc1.
    destruct (deliver_all_records ctx evs tasks c1) as (records & Hcalls & Hperm).
    exists records. rewrite Hcalls, Hc1. cbn [state_calls].
    rewrite <- app_assoc. split; [done|].
    by rewrite Hperm, Htasks, pending_records_started.
  - intros [|error]; [done|]. simpl.
    by destruct (error_matches terminate_pattern error).
Qed.

(** X9: every call of the dispatch function leaves one more listener with
    [ctx.onCancel] for itself and one for each of its tasks; the events of
    the pool, settlements included, remove none of them. *)
Theorem cancel_listeners_accumulate (ctx : Vitest) (specs : list WorkspaceSpec)
    (invalidates : list string) (evs : list PoolEvent) (c : Controller) :
  cancel_listeners (dispatch ctx specs invalidates evs c).2
  = cancel_listeners c
    ++ CancelPendingTasks
       :: (RpcOnCancel <$> seq (length (emitters c)) (task_count specs)).
Proof.
  rewrite dispatch_snd.
  pose proof (dispatch_start_eq ctx specs invalidates c) as Heq.
  destruct (dispatch_start ctx specs invalidates c) as [tasks c1].
  injection Heq as _ Hc1.
  destruct (deliver_all_frame ctx evs tasks c1) as [-> _]. by rewrite Hc1.
Qed.


Lemma dispatch_submitted (ctx : Vitest) (specs : list WorkspaceSpec)
    (invalidates : list string) (evs : list PoolEvent) (c : Controller) :
  submitted (dispatch ctx specs invalidates evs c).2
  = submitted c
    ++ (task_data
        <$> started_tasks ctx invalidates ∅ (units_of specs) (id c)
              (length (emitters c))).
Proof.
  rewrite dispatch_snd.
  pose proof (dispatch_start_eq ctx specs invalidates c) as Heq.
  destruct (dispatch_start ctx specs invalidates c) as [tasks c1].
  injection Heq as _ Hc1.
  destruct (deliver_all_frame ctx evs tasks c1) as [_ ->]. by rewrite Hc1.
Qed.

(** X10: a call hands the pool exactly one task for each unit, in the
    order of the units and after the tasks of earlier calls, each with
    exactly one file, the environment, project name and provided context
    of its unit, the invalidated paths of the call, the fixed tag
    [forks], the worker entry of the pool, and the next identifier. *)
Theorem one_task_per_file (ctx : Vitest) (specs : list WorkspaceSpec)
    (invalidates : list string) (evs : list PoolEvent) (c : Controller) :
  let c' := (dispatch ctx specs invalidates evs c).2 in
  length (submitted c') = (length (submitted c) + task_count specs)%nat
  ∧ (∀ k d, submitted c !! k = Some d → submitted c' !! k = Some d)
  ∧ (∀ j u, units_of specs !! j = Some u →
       ∃ d, submitted c' !! (length (submitted c) + j)%nat = Some d
         ∧ rpc_pool d = "forks"%string
         ∧ rpc_worker d = worker ctx
         ∧ rpc_files d = [file u]
         ∧ rpc_environment d = environment u
         ∧ rpc_invalidates d = invalidates
         ∧ projectName d = getName (project u)
         ∧ providedContext d = getProvidedContext (project u)
         ∧ workerId d = (id c + S j)%nat).
Proof.
  intros c'. subst c'. rewrite dispatch_submitted. split; [|split].
  - rewrite length_app, length_fmap. unfold started_tasks.
    by rewrite length_imap.
  - intros k d Hk. by apply lookup_app_l_Some.
  - intros j u Hu. eexists. split.
    + rewrite lookup_app_r by lia.
      replace (length (submitted c) + j - length (submitted c))%nat with j by lia.
      rewrite list_lookup_fmap, started_tasks_lookup, Hu. done.
    + done.
Qed.

Lemma first_unit_of_Some (key : nat) (units : list FileUnit) (u : FileUnit) :
  u ∈ units → project_key (project u) = key →
  ∃ u0, first_unit_of key units = Some u0 ∧ project_key (project u0) = key.
Proof.
  intros Hu Hk. unfold first_unit_of.
  destruct (list_find_elem_of (λ u, project_key (project u) = key) units u Hu Hk)
    as [[i u0] H0].
  rewrite H0. exists u0. split; [done|].
  by apply list_find_Some in H0 as (_ & ? & _).
Qed.

(** X11: within a call every task of a project carries the snapshot built
    from the first unit of that project, so that tasks of one project agree
    on their configuration; the snapshot is built anew in every call,
    whatever earlier calls have done. *)
Theorem config_shared_by_project (ctx : Vitest) (specs : list WorkspaceSpec)
    (invalidates : list string) (evs : list PoolEvent) (c : Controller) :
  (∀ j u t, units_of specs !! j = Some u →
     dispatch_tasks ctx specs invalidates evs c !! j = Some t →
     ∃ u0, first_unit_of (project_key (project u)) (units_of specs) = Some u0
       ∧ project_key (project u0) = project_key (project u)
       ∧ rpc_config (task_data t)
         = serialize_config (getSerializableConfig (project u0)))
  ∧ (∀ i j ui uj ti tj,
       units_of specs !! i = Some ui → units_of specs !! j = Some uj →
       dispatch_tasks ctx specs invalidates evs c !! i = Some ti →
       dispatch_tasks ctx specs invalidates evs c !! j = Some tj →
       project_key (project ui) = project_key (project uj) →
       rpc_config (task_data ti) = rpc_config (task_data tj)).
Proof.
  assert (Hone : ∀ j u t, units_of specs !! j = Some u →
     dispatch_tasks ctx specs invalidates evs c !! j = Some t →
     ∃ u0, first_unit_of (project_key (project u)) (units_of specs) = Some u0
       ∧ project_key (project u0) = project_key (project u)
       ∧ rpc_config (task_data t)
         = serialize_config (getSerializableConfig (project u0))).
  { intros j u t Hu Ht.
    destruct (dispatch_tasks_started ctx specs invalidates evs c j u Hu)
      as (t' & Ht' & Hd & _).
    rewrite Ht in Ht'. injection Ht' as <-.
    destruct (first_unit_of_Some (project_key (project u)) (units_of specs) u)
      as (u0 & H0 & Hk); [by eapply list_elem_of_lookup_2 | done |].
    exists u0. split; [done|]. split; [done|].
    rewrite Hd. simpl. unfold memo_config. by rewrite lookup_empty, H0. }
  split; [exact Hone|].
  intros i j ui uj ti tj Hui Huj Hti Htj Hk.
  destruct (Hone i ui ti Hui Hti) as (u0 & H0 & _ & ->).
  destruct (Hone j uj tj Huj Htj) as (u1 & H1 & _ & ->).
  rewrite Hk in H0. congruence.
Qed.

(** X12: every task of a call gets a channel of its own, on an emitter
    that did not exist before the call. *)
Theorem channels_distinct (ctx : Vitest) (specs : list WorkspaceSpec)
    (invalidates : list string) (evs : list PoolEvent) (c : Controller)
    (i j : nat) (ti tj : Task) :
  dispatch_tasks ctx specs invalidates evs c !! i = Some ti →
  dispatch_tasks ctx specs invalidates evs c !! j = Some tj →
  (task_emitter ti = task_emitter tj ↔ i = j)
  ∧ (length (emitters c) ≤ task_emitter ti)%nat.
Proof.
  intros Hi Hj.
  assert (Hem : ∀ k t, dispatch_tasks ctx specs invalidates evs c !! k = Some t →
                       task_emitter t = (length (emitters c) + k)%nat).
  { intros k t Hk.
    destruct (lookup_lt_is_Some_2 (units_of specs) k) as [u Hu].
    { rewrite units_of_length, <- (dispatch_tasks_length ctx specs invalidates evs c).
      by eapply lookup_lt_Some. }
    destruct (dispatch_tasks_started ctx specs invalidates evs c k u Hu)
      as (t' & Ht' & _ & _ & He & _).
    congruence. }
  rewrite (Hem i ti Hi), (Hem j tj Hj). split; [|lia]. split; [lia | by intros ->].
Qed.

Lemma deliver_all_nil (ctx : Vitest) (evs : list PoolEvent) (c : Controller) :
  deliver_all ctx evs ([], c) = ([], c).
Proof.
  induction evs as [|ev evs IH]; [done|].
  rewrite deliver_all_cons.
  assert (deliver ctx ev ([], c) = ([], c)) as ->; [|done].
  by destruct ev.
Qed.

(** X13: a call without units starts no task: it registers its cancel
    listener and resolves at once, whatever the pool reports afterwards;
    the counter, [ctx.state] and the channels stay as they are. *)
Theorem dispatch_without_units (ctx : Vitest) (specs : list WorkspaceSpec)
    (invalidates : list string) (evs : list PoolEvent) (c : Controller) :
  units_of specs = [] →
  dispatch ctx specs invalidates evs c
  = (Some Resolved, onCancel CancelPendingTasks c).
Proof.
  intros Hu. unfold dispatch, dispatch_start.
  fold (units_of specs). rewrite Hu. cbn [start_all].
  by rewrite deliver_all_nil.
Qed.

Lemma omap_agree {A B : Type} (f g : A → option B) (l : list A) :
  Forall (λ x, f x = g x) l → omap f l = omap g l.
Proof.
  induction 1 as [|x l Hx _ IH]; [done|]. csimpl. by rewrite Hx, IH.
Qed.

(** X14: how a call completes is decided by how the pool settled each of
    its tasks together with what [ctx.isCancelling] read at that
    settlement, and by nothing else: not by the order in which the tasks
    settled or by repeated or foreign events, not by the invalidated
    paths, and not by the state earlier calls left behind. *)
Theorem completion_by_settlements (ctx : Vitest) (specs : list WorkspaceSpec)
    (invalidates invalidates' : list string) (evs evs' : list PoolEvent)
    (c c' : Controller) :
  (∀ i, (i < task_count specs)%nat →
        first_settlement i evs = first_settlement i evs') →
  (dispatch ctx specs invalidates evs c).1
  = (dispatch ctx specs invalidates' evs' c').1.
Proof.
  intros Hsame.
  destruct (decide (Forall (λ i, is_Some (first_settlement i evs))
                      (seq 0 (task_count specs)))) as [Hall|Hnot].
  - rewrite Forall_seq in Hall.
    assert (Hall1 : ∀ i, (i < task_count specs)%nat → is_Some (first_settlement i evs)).
    { intros i Hi. apply Hall. lia. }
    assert (Hall2 : ∀ i, (i < task_count specs)%nat → is_Some (first_settlement i evs')).
    { intros i Hi. rewrite <- Hsame by done. by apply Hall1. }
    rewrite !dispatch_completes by done. do 2 f_equal.
    unfold genuine_errors. apply omap_agree. apply Forall_seq.
    intros i [_ Hi]. by rewrite Hsame.
  - apply not_Forall_Exists in Hnot; [|apply _].
    apply Exists_exists in Hnot as (i & Hi & Hnone). apply elem_of_seq in Hi.
    simpl in Hnone.
    assert (Hn : first_settlement i evs = None).
    { destruct (first_settlement i evs); [|done]. by destruct Hnone. }
    rewrite (dispatch_waiting ctx specs invalidates evs c i) by (done || lia).
    rewrite (dispatch_waiting ctx specs invalidates' evs' c' i); [done | lia |].
    rewrite <- Hsame by lia. done.
Qed.

Lemma started_tasks_ids (ctx : Vitest) (invalidates : list string)
    (configs : gmap nat SerializedConfig) (units : list FileUnit) (id0 base : nat) :
  workerId <$> (task_data <$> started_tasks ctx invalidates configs units id0 base)
  = seq (S id0) (length units).
Proof.
  apply list_eq. intros j.
  rewrite !list_lookup_fmap, started_tasks_lookup.
  destruct (units !! j) as [u|] eqn:Hu; simpl.
  - symmetry. apply lookup_seq. split; [lia|]. by eapply lookup_lt_Some.
  - symmetry. apply lookup_seq_ge. by apply lookup_ge_None.
Qed.

Lemma dispatch_id (ctx : Vitest) (specs : list WorkspaceSpec)
    (invalidates : list string) (evs : list PoolEvent) (c : Controller) :
  id (dispatch ctx specs invalidates evs c).2 = (id c + task_count specs)%nat.
Proof.
  rewrite dispatch_snd.
  pose proof (dispatch_start_eq ctx specs invalidates c) as Heq.
  destruct (dispatch_start ctx specs invalidates c) as [tasks c1].
  injection Heq as _ Hc1. rewrite deliver_all_id, Hc1. done.
Qed.

Lemma dispatch_seq_ids (ctx : Vitest) (calls : list DispatchCall) (c : Controller) :
  workerId <$> submitted c = seq 1 (id c) →
  workerId <$> submitted (dispatch_seq ctx calls c).2
  = seq 1 (id (dispatch_seq ctx calls c).2).
Proof.
  revert c. induction calls as [|[[specs invalidates] evs] calls IH]; intros c Hc;
    [done|].
  cbn [dispatch_seq].
  pose proof (dispatch_submitted ctx specs invalidates evs c) as Hsub.
  pose proof (dispatch_id ctx specs invalidates evs c) as Hid.
  destruct (dispatch ctx specs invalidates evs c) as [r c1]. simpl in Hsub, Hid.
  specialize (IH c1).
  destruct (dispatch_seq ctx calls c1) as [rs c2]. simpl in *.
  apply IH. rewrite Hsub, fmap_app, Hc, started_tasks_ids, Hid.
  rewrite units_of_length. by rewrite seq_app.
Qed.

(** X15: over the life of a pool, from its construction through any
    sequence of calls of the dispatch function, the tasks handed to the
    pool carry the identifiers 1, 2, 3, ... in the order of their
    submission; no identifier is used twice. *)
Theorem workerId_unique_in_pool (ctx : Vitest) (calls : list DispatchCall) :
  let c := (dispatch_seq ctx calls new_controller).2 in
  workerId <$> submitted c = seq 1 (id c)
  ∧ NoDup (workerId <$> submitted c).
Proof.
  intros c.
  assert (H : workerId <$> submitted c = seq 1 (id c)).
  { subst c. by apply dispatch_seq_ids. }
  split; [done|]. rewrite H. apply NoDup_seq.
Qed.


(** ** Messages on the channels *)

Lemma emit_emitter_on (event event' : string) (cb : Listener) (e : EventEmitter) :
  emit event' (emitter_on event cb e)
  = if decide (event = event') then emit event e ++ [cb] else emit event' e.
Proof.
  unfold emit, emitter_on. case_decide as H.
  - subst. by rewrite lookup_insert_eq.
  - by rewrite lookup_insert_ne.
Qed.

Lemma emit_callbacks (e : EventEmitter) (ks : list nat) :
  let e' := foldl (λ e k, emitter_on events_message (PoolCallback k) e) e ks in
  emit events_message e' = emit events_message e ++ (PoolCallback <$> ks)
  ∧ emit events_response e' = emit events_response e.
Proof.
  revert e. induction ks as [|k ks IH]; intros e; simpl.
  - by rewrite app_nil_r.
  - destruct (IH (emitter_on events_message (PoolCallback k) e)) as [-> ->].
    rewrite !emit_emitter_on. rewrite decide_True by done.
    rewrite decide_False by done. by rewrite <- app_assoc.
Qed.

Lemma listenerCount_bound (e : EventEmitter) (event : string) (l : list Listener) :
  e !! event = Some l → (length l ≤ listenerCount e)%nat.
Proof.
  unfold listenerCount. revert event l.
  apply (map_fold_weak_ind
           (λ r (m : EventEmitter), ∀ event l, m !! event = Some l → (length l ≤ r)%nat)).
  - intros event l H. by rewrite lookup_empty in H.
  - intros i x m r Hi IH event l Hl.
    destruct (decide (i = event)) as [->|Hne].
    + rewrite lookup_insert_eq in Hl. injection Hl as ->. lia.
    + rewrite lookup_insert_ne in Hl by done. specialize (IH event l Hl). lia.
Qed.

Lemma listenerCount_zero_emit (e : EventEmitter) (event : string) :
  listenerCount e = 0%nat → emit event e = [].
Proof.
  intros Hz. unfold emit. destruct (e !! event) as [l|] eqn:Hl; [|done].
  apply listenerCount_bound in Hl. simpl. destruct l; [done|]. simpl in Hl. lia.
Qed.

(** The emitter of a running task through the events: only the
    subscriptions of the pool for that task reach it. *)
Lemma deliver_all_pending_emitter (ctx : Vitest) (evs : list PoolEvent)
    (tasks : list Task) (c : Controller) (i : nat) (t : Task) (e : EventEmitter) :
  tasks !! i = Some t →
  task_result t = None →
  (∀ j tj, tasks !! j = Some tj → task_emitter tj = task_emitter t → j = i) →
  emitters c !! task_emitter t = Some e →
  first_settlement i evs = None →
  emitters (deliver_all ctx evs (tasks, c)).2 !! task_emitter t
  = Some (foldl (λ e k, emitter_on events_message (PoolCallback k) e) e
            (callbacks_of i evs)).
Proof.
  revert tasks c e. induction evs as [|ev evs IH]; intros tasks c e Hi Hr Hd He Hs;
    [done|].
  rewrite deliver_all_cons. destruct ev as [j k|j o b].
  - cbn [first_settlement] in Hs. cbn [callbacks_of].
    destruct (deliver_OnMessage ctx j k tasks c) as (Ht & _).
    assert (Hem : emitters (deliver ctx (OnMessage j k) (tasks, c)).2 !! task_emitter t
                  = Some (if decide (i = j)
                          then emitter_on events_message (PoolCallback k) e else e)).
    { simpl. destruct (tasks !! j) as [tj|] eqn:Hj.
      - destruct (task_result tj) eqn:Hrj; simpl.
        + case_decide; [|done]. subst j. congruence.
        + unfold channel_onMessage. rewrite update_emitter_lookup.
          destruct (decide (i = j)) as [->|Hne].
          * assert (tj = t) by congruence. subst tj.
            rewrite decide_True by done. by rewrite He.
          * rewrite decide_False; [done|]. intros Heq. symmetry in Heq.
            apply Hne. symmetry. by eapply Hd.
      - simpl. case_decide; [|done]. subst j. congruence. }
    destruct (deliver ctx (OnMessage j k) (tasks, c)) as [tasks1 c1].
    simpl in Ht, Hem. subst tasks1.
    rewrite (IH tasks c1 _ Hi Hr Hd Hem Hs). by case_decide.
  - cbn [first_settlement] in Hs. cbn [callbacks_of].
    destruct (decide (i = j)) as [->|Hne]; [done|].
    assert (Hcase : (∃ tj, tasks !! j = Some tj ∧ task_result tj = None)
                    ∨ ∀ tj, tasks !! j = Some tj → task_result tj ≠ None).
    { destruct (tasks !! j) as [tj|]; [|by right].
      destruct (task_result tj) eqn:Hrj; [right | left; eauto].
      intros ? ? ?. congruence. }
    destruct Hcase as [(tj & Hj & Hrj) | Hign].
    + rewrite (deliver_Settles ctx j o b tasks c tj) by done.
      apply IH; [by rewrite list_lookup_insert_ne | done | | | done].
      * intros j' tj' Hj' Heq. destruct (decide (j' = j)) as [->|Hne'].
        { rewrite list_lookup_insert_eq in Hj' by (by eapply lookup_lt_Some).
          injection Hj' as <-. simpl in Heq. by eapply Hd. }
        { rewrite list_lookup_insert_ne in Hj' by done. by eapply Hd. }
      * rewrite runFiles_resume_emitters. unfold cleanup.
        rewrite update_emitter_lookup, decide_False; [done|].
        intros Heq. apply Hne. symmetry. by eapply Hd.
    + rewrite deliver_Settles_ignored by done. by apply IH.
Qed.

(** X16: while a task is running, a message of its worker, posted on its
    channel, is handed to the receiver of the controller and to nothing
    else, and a message of the controller is handed to the callbacks the
    pool subscribed for this task, in the order of their subscription, and
    to no callback of another task: the channels do not leak into each
    other, whatever happens to the other tasks meanwhile. *)
Theorem messages_routed (ctx : Vitest) (specs : list WorkspaceSpec)
    (invalidates : list string) (evs : list PoolEvent) (c : Controller) (i : nat) :
  (i < task_count specs)%nat →
  first_settlement i evs = None →
  let c' := (dispatch ctx specs invalidates evs c).2 in
  let channel := (length (emitters c) + i)%nat in
  channel_postMessage channel c' = [RpcReceive]
  ∧ rpc_post channel c' = PoolCallback <$> callbacks_of i evs.
Proof.
  intros Hi Hs c' channel. subst c' channel. rewrite dispatch_snd.
  pose proof (dispatch_start_eq ctx specs invalidates c) as Heq.
  destruct (dispatch_start ctx specs invalidates c) as [tasks c1].
  injection Heq as Htasks Hc1.
  destruct (lookup_lt_is_Some_2 (units_of specs) i) as [u Hu];
    [by rewrite units_of_length|].
  set (t := started_task ctx invalidates (memo_config ∅ (units_of specs) u) u
              (id c + S i) (length (emitters c) + i)).
  assert (Ht : tasks !! i = Some t).
  { subst tasks. by rewrite started_tasks_lookup, Hu. }
  assert (Hem : emitters
                  (deliver_all ctx evs (tasks, c1)).2 !! (length (emitters c) + i)%nat
                = Some (foldl (λ e k, emitter_on events_message (PoolCallback k) e)
                          fresh_channel (callbacks_of i evs))).
  { apply (deliver_all_pending_emitter ctx evs tasks c1 i t); try done.
    - intros j tj Hj Heq. subst tasks. rewrite started_tasks_lookup in Hj.
      destruct (units_of specs !! j); [|done]. injection Hj as <-.
      simpl in Heq. lia.
    - subst c1. simpl. rewrite lookup_app_r by lia.
      apply lookup_replicate. split; [done|]. lia. }
  unfold channel_postMessage, rpc_post. rewrite Hem. simpl.
  destruct (emit_callbacks fresh_channel (callbacks_of i evs)) as [-> ->].
  done.
Qed.

(** X17: once [runFiles] has finished, whatever the outcome, a message
    posted on the channel of its task, in either direction, reaches no
    listener; and when a call has completed, this holds for every channel
    of the pool, if it held before the call. *)
Theorem settled_channel_is_silent (ctx : Vitest) :
  (∀ (t : Task) (outcome : Settlement) (isCancelling : bool) (c : Controller),
     let c' := (runFiles_resume ctx t outcome isCancelling c).2 in
     channel_postMessage (task_emitter t) c' = []
     ∧ rpc_post (task_emitter t) c' = [])
  ∧ (∀ specs invalidates evs c,
       registered_listeners c = 0%nat →
       is_Some (dispatch ctx specs invalidates evs c).1 →
       ∀ channel,
         channel_postMessage channel (dispatch ctx specs invalidates evs c).2 = []
         ∧ rpc_post channel (dispatch ctx specs invalidates evs c).2 = []).
Proof.
  split.
  - intros t outcome b c c'. subst c'. unfold channel_postMessage, rpc_post.
    rewrite runFiles_resume_emitters. unfold cleanup.
    rewrite update_emitter_lookup, decide_True by done.
    by destruct (emitters c !! task_emitter t).
  - intros specs invalidates evs c Hz Hsome channel.
    pose proof (dispatch_listeners ctx specs invalidates evs c Hz Hsome) as Hz'.
    unfold channel_postMessage, rpc_post.
    destruct (emitters (dispatch ctx specs invalidates evs c).2 !! channel)
      as [e|] eqn:He; [|done].
    simpl. apply (proj1 (registered_listeners_zero _)) with (k := channel) (e := e) in Hz';
      [|done].
    by rewrite !listenerCount_zero_emit.
Qed.


Lemma omap_length_le {A B : Type} (f : A → option B) (l : list A) :
  (length (omap f l) ≤ length l)%nat.
Proof.
  induction l as [|x l IH]; [done|]. csimpl.
  destruct (f x); simpl; lia.
Qed.

(** X18: an aggregate error is never empty and never holds more errors
    than the call has tasks: each task contributes at most one error. *)
Theorem aggregate_size (ctx : Vitest) (specs : list WorkspaceSpec)
    (invalidates : list string) (evs : list PoolEvent) (c : Controller)
    (agg : AggregateError) :
  (dispatch ctx specs invalidates evs c).1 = Some (Threw agg) →
  (0 < length (errors agg) ≤ task_count specs)%nat.
Proof.
  intros Hd.
  assert (Hall : ∀ i, (i < task_count specs)%nat → is_Some (first_settlement i evs)).
  { apply (dispatch_is_Some ctx specs invalidates evs c). by rewrite Hd. }
  rewrite dispatch_completes in Hd by done. injection Hd as Hd.
  apply completion_of_Threw in Hd as [Hne ->]. simpl. split.
  - destruct (genuine_errors (task_count specs) evs); [done | simpl; lia].
  - unfold genuine_errors.
    etrans; [apply omap_length_le|]. by rewrite length_seq.
Qed.


(** ** The percent test *)

(** X19: the test [limit.at(-1) !== '%'] of [getMemoryLimit] looks at the
    last character only: a string has a last character [c] exactly when it
    is some text followed by [c], and the empty string has none, so that
    it counts as a string that is not a percentage. *)
Theorem at_last_is_last_character (s : string) (c : ascii) :
  (at_last s = Some c ↔ ∃ p, s = p +:+ String c EmptyString)
  ∧ (at_last s = None ↔ s = EmptyString).
Proof.
  split.
  - split.
    + induction s as [|a s IH]; [done|]. cbn [at_last].
      destruct s as [|b s].
      * intros [= ->]. by exists EmptyString.
      * intros H. destruct (IH H) as [p Hp]. exists (String a p).
        change (String a (String b s) = String a (p +:+ String c EmptyString)).
        congruence.
    + intros [p ->]. induction p as [|a p IH]; [done|].
      simpl. destruct (p +:+ String c EmptyString) eqn:E; [|done].
      by destruct p.
  - split.
    + induction s as [|a s IH]; [done|]. cbn [at_last].
      destruct s as [|b s]; [done|]. intros H. by specialize (IH H).
    + by intros ->.
Qed.


End VmForks.

(** * The memory ceiling *)


(** * The properties at concrete inputs *)

Lemma default_worker_count_witness :
  let options :=
    tinypoolOptions example_resolve "/repo"
      (λ _, LimitNumber (1 # 2)) stringToBytes_spec
      (example_os 8 None) (example_ctx true) [] ∅ in
  0 < 8 ∧ maxThreads options = 4 ∧ minThreads options = 4.
Proof.
  split; [lia|].
  destruct (default_worker_count example_resolve "/repo"
              (λ _, LimitNumber (1 # 2)) stringToBytes_spec
              (example_os 8 None) (example_ctx true) [] ∅ 8)
    as (Hmax & Hmin & _); try reflexivity; try lia.
  split; [exact Hmax | exact Hmin].
Defined.

Example default_worker_count_8_run :
  threadsCount (example_os 8 None) (example_ctx false) = 7.
Proof. reflexivity. Qed.

Example default_worker_count_1 :
  threadsCount (example_os 1 None) (example_ctx true) = 1
  ∧ threadsCount (example_os 1 None) (example_ctx false) = 1.
Proof. split; reflexivity. Qed.

Lemma single_worker_forced_witness :
  let ctx := {| config := example_single_fork; distPath := "/repo/dist" |} in
  let options :=
    tinypoolOptions example_resolve "/repo"
      (λ _, LimitNumber (1 # 2)) stringToBytes_spec
      (example_os 8 None) ctx [] ∅ in
  singleFork (vmForksOptions ctx) = Some true
  ∧ maxThreads options = 1 ∧ minThreads options = 1.
Proof.
  split; [reflexivity|].
  apply (single_worker_forced example_resolve "/repo"
           (λ _, LimitNumber (1 # 2)) stringToBytes_spec
           (example_os 8 None)
           {| config := example_single_fork; distPath := "/repo/dist" |} [] ∅).
  left. reflexivity.
Defined.



(** The examples of the specification, for every total memory [M]. *)
Lemma memory_limit_examples (M : Q) :
  (∃ q, getMemoryLimit
      (λ _, LimitString "50%") stringToBytes_spec
      (example_os 8 (Some M))
          (example_config false) = Some q ∧ (q == (1 # 2) * M)%Q)
  ∧ (∃ q, getMemoryLimit
      (λ _, LimitNumber (1 # 2)) stringToBytes_spec
      (example_os 8 (Some M))
            (example_config true) = Some q ∧ (q == M / 4)%Q)
  ∧ getMemoryLimit
      (λ _, LimitNumber (2048 # 1)) stringToBytes_spec
      (example_os 8 (Some M))
      (example_config false) = Some (2048 # 1)%Q
  ∧ getMemoryLimit
      (λ _, LimitString "10%") stringToBytes_spec
      (example_os 8 None)
      (example_config false) = None.
Proof.
  split; [|split; [|split]].
  - exists ((50 # 1) / 100 * M)%Q. split; [reflexivity | field].
  - exists ((1 # 2) * (M / 2))%Q. split; [reflexivity | field].
  - reflexivity.
  - reflexivity.
Qed.

Lemma regex_serialization_witness :
  testNamePattern (getSerializableConfig example_project)
  = Some (PatRegExp {| source := "adds"; flags := "i" |})
  ∧ ser_testNamePattern (getConfig example_project ∅).1 = Some "$$vitest:/adds/i"%string.
Proof.
  split; [reflexivity|].
  destruct regex_serialization as (_ & _ & Hconfig).
  apply (Hconfig example_project ∅ (PatRegExp {| source := "adds"; flags := "i" |}));
    reflexivity.
Defined.


(** Before the third file settles the call is still waiting, although the
    second file has been rejected with a genuine error. *)
Example dispatch_waits_for_the_rest :
  (dispatch example_resolve example_groupFilesByEnv (example_ctx false)
     example_specs [] (take 5 example_events) new_controller).1 = None.
Proof. vm_compute. reflexivity. Qed.

Lemma cancellation_classified_witness :
  includes cancelled_pattern "The task has been cancelled" = true
  ∧ includes terminate_pattern "The task has been cancelled" = false
  ∧ runFiles_resume (example_ctx false) example_task
      (rejected (ErrorInstance "The task has been cancelled")) true example_running
    = (fulfilled,
       cleanup 0 (call_state (cancelFiles ["a.test.ts"] "/repo" "unit") example_running))
  ∧ runFiles_resume (example_ctx false) example_task
      (rejected (ErrorInstance "The task has been cancelled")) false example_running
    = (rejected (ErrorInstance "The task has been cancelled"),
       cleanup 0 example_running).
Proof.
  split; [reflexivity|]. split; [reflexivity|].
  destruct (cancellation_classified (example_ctx false) example_task
              "The task has been cancelled" example_running eq_refl eq_refl)
    as (Hset & Hunset & _).
  split; [exact Hset | exact Hunset].
Defined.

(** C2 as it is stated fails for a message that matches both patterns: with
    the cancellation flag set the files are not marked cancelled, and with
    the flag not set the rejection is not rethrown; in both cases the first
    branch records a timeout cause. *)
Lemma cancelled_rejection_counterexample :
  let error := ErrorInstance both_patterns in
  let set := runFiles_resume (example_ctx false) example_task (rejected error)
               true example_running in
  let unset := runFiles_resume (example_ctx false) example_task (rejected error)
                 false example_running in
  error_matches cancelled_pattern error = true
  ∧ (cancelFiles ["a.test.ts"] "/repo" "unit" ∉ state_calls set.2)
  ∧ (unset.1 ≠ rejected error)
  ∧ state_calls set.2
    = [clearFiles "unit" ["a.test.ts"];
       addProcessTimeoutCause "Failed to terminate worker while running a.test.ts."]
  ∧ unset.1 = fulfilled.
Proof.
  intros error set unset.
  assert (Hcalls : state_calls set.2
    = [clearFiles "unit" ["a.test.ts"];
       addProcessTimeoutCause "Failed to terminate worker while running a.test.ts."])
    by (vm_compute; reflexivity).
  assert (Hunset : unset.1 = fulfilled) by (vm_compute; reflexivity).
  split; [reflexivity|]. split; [|split; [|split; [exact Hcalls | exact Hunset]]].
  - rewrite Hcalls. intros H.
    apply elem_of_cons in H as [H|H]; [discriminate|].
    apply elem_of_cons in H as [H|H]; [discriminate|].
    by apply elem_of_nil in H.
  - rewrite Hunset. discriminate.
Qed.


Lemma non_error_rejection_is_genuine_witness :
  first_settlement 1 example_thrown_text_events
  = Some (rejected (NotAnError "The task has been cancelled"), true)
  ∧ (∃ agg,
        (dispatch example_resolve example_groupFilesByEnv (example_ctx false)
           example_specs [] example_thrown_text_events new_controller).1
        = Some (Threw agg)
        ∧ NotAnError "The task has been cancelled" ∈ errors agg).
Proof.
  split; [reflexivity|].
  destruct (non_error_rejection_is_genuine example_resolve example_groupFilesByEnv
              (example_ctx false)) as [_ Hagg].
  apply (Hagg example_specs [] example_thrown_text_events new_controller 1%nat
           "The task has been cancelled"%string true).
  - vm_compute. lia.
  - intros j Hj. change (j < 3)%nat in Hj.
    destruct j as [|[|[|j]]]; [eexists; reflexivity .. | lia].
  - reflexivity.
Defined.

Lemma channel_listeners_released_witness :
  let calls : list DispatchCall :=
    [(example_specs, [], example_events);
     (example_specs, [], example_thrown_text_events)] in
  let r := dispatch_seq example_resolve example_groupFilesByEnv (example_ctx false)
             calls new_controller in
  registered_listeners new_controller = 0%nat
  ∧ Forall is_Some r.1
  ∧ registered_listeners r.2 = 0%nat.
Proof.
  intros calls r.
  assert (Hall : Forall is_Some r.1).
  { vm_compute. repeat econstructor. }
  split; [reflexivity|]. split; [exact Hall|].
  destruct (channel_listeners_released example_resolve example_groupFilesByEnv
              (example_ctx false)) as [_ Hseq].
  apply (Hseq calls new_controller); [reflexivity | exact Hall].
Defined.

(** The listeners handed to [ctx.onCancel] are not part of a channel and
    stay registered: one for each call and one for each task. *)
Example cancel_listeners_stay :
  cancel_listeners
    (dispatch example_resolve example_groupFilesByEnv (example_ctx false)
       example_specs [] example_events new_controller).2
  = [CancelPendingTasks; RpcOnCancel 0; RpcOnCancel 1; RpcOnCancel 2].
Proof. vm_compute. reflexivity. Qed.

(** C8 as it is stated fails: the second call of the dispatch function does
    not start from 1 again, it goes on where the first call stopped. *)
Lemma workerId_fresh_per_call_counterexample :
  let first := dispatch example_resolve example_groupFilesByEnv (example_ctx false)
                 example_specs [] example_events new_controller in
  assigned_ids example_resolve example_groupFilesByEnv (example_ctx false)
    example_specs [] new_controller = [1; 2; 3]%nat
  ∧ is_Some first.1
  ∧ id first.2 = 3%nat
  ∧ assigned_ids example_resolve example_groupFilesByEnv (example_ctx false)
      example_specs [] first.2 = [4; 5; 6]%nat
  ∧ assigned_ids example_resolve example_groupFilesByEnv (example_ctx false)
      example_specs [] first.2
    ≠ assigned_ids example_resolve example_groupFilesByEnv (example_ctx false)
        example_specs [] new_controller.
Proof.
  intros first.
  assert (H1 : assigned_ids example_resolve example_groupFilesByEnv (example_ctx false)
                 example_specs [] new_controller = [1; 2; 3]%nat)
    by (vm_compute; reflexivity).
  assert (H2 : assigned_ids example_resolve example_groupFilesByEnv (example_ctx false)
                 example_specs [] first.2 = [4; 5; 6]%nat)
    by (vm_compute; reflexivity).
  split; [exact H1|]. split; [vm_compute; eexists; reflexivity|].
  split; [vm_compute; reflexivity|]. split; [exact H2|].
  rewrite H1, H2. discriminate.
Qed.

(** * The further properties at concrete inputs *)

Lemma stringifyRegex_collisions_witness :
  String.prefix vitest_marker "adds" = false
  ∧ stringifyRegex (PatString "adds")
    ≠ stringifyRegex (PatRegExp {| source := "adds"; flags := "i" |}).
Proof.
  split; [reflexivity|].
  destruct stringifyRegex_collisions as (_ & Hplain & _).
  apply Hplain. reflexivity.
Defined.

Lemma getConfig_memo_witness :
  example_cached !! project_key example_project
  = Some {| ser_base := example_config true; ser_testNamePattern := None |}
  ∧ getConfig example_project example_cached
    = ({| ser_base := example_config true; ser_testNamePattern := None |},
       example_cached).
Proof.
  split; [reflexivity|].
  destruct (getConfig_memo example_project example_cached) as (Hcached & _).
  apply Hcached. reflexivity.
Defined.

Lemma threadsCount_watch_le_run_witness :
  watch (config (example_ctx true)) = true
  ∧ watch (config (example_ctx false)) = false
  ∧ 1 ≤ threadsCount (example_os 0 None) (example_ctx true)
      ≤ threadsCount (example_os 0 None) (example_ctx false).
Proof.
  split; [reflexivity|]. split; [reflexivity|].
  apply (threadsCount_watch_le_run (example_os 0 None) (example_ctx true)
           (example_ctx false)); reflexivity.
Defined.

Lemma worker_override_precedence_witness :
  let ctx := {| config := example_overrides; distPath := "/repo/dist" |} in
  let options :=
    tinypoolOptions example_resolve "/repo"
      (λ _, LimitNumber (1 # 2)) stringToBytes_spec
      (example_os 8 None) ctx [] ∅ in
  maxForks (vmForksOptions ctx) = Some 0
  ∧ maxThreads options = 0 ∧ minThreads options = 0.
Proof.
  split; [reflexivity|].
  destruct (worker_override_precedence example_resolve "/repo"
              (λ _, LimitNumber (1 # 2)) stringToBytes_spec (example_os 8 None)
              {| config := example_overrides; distPath := "/repo/dist" |} [] ∅
              eq_refl eq_refl) as [Hforks _].
  apply (Hforks 0). reflexivity.
Defined.

Lemma worker_bounds_not_clamped_witness :
  let ctx := {| config := example_max_only; distPath := "/repo/dist" |} in
  let options :=
    tinypoolOptions example_resolve "/repo"
      (λ _, LimitNumber (1 # 2)) stringToBytes_spec
      (example_os 8 None) ctx [] ∅ in
  2 < threadsCount (example_os 8 None) ctx
  ∧ maxThreads options = 2 ∧ minThreads options = 7
  ∧ maxThreads options < minThreads options.
Proof.
  split; [reflexivity|].
  apply (worker_bounds_not_clamped example_resolve "/repo"
           (λ _, LimitNumber (1 # 2)) stringToBytes_spec (example_os 8 None)
           {| config := example_max_only; distPath := "/repo/dist" |} [] ∅ 2);
    reflexivity.
Defined.

Lemma recycle_threshold_never_zero_witness :
  let threshold :=
    maxMemoryLimitBeforeRecycle
      (tinypoolOptions example_resolve "/repo"
         (λ _, LimitNumber (2048 # 1)) stringToBytes_spec
         (example_os 8 (Some (8000 # 1))) (example_ctx false) [] ∅) in
  threshold = Some (2048 # 1)%Q
  ∧ ¬ (2048 # 1 == 0)%Q
  ∧ getMemoryLimit
      (λ _, LimitNumber (2048 # 1)) stringToBytes_spec
      (example_os 8 (Some (8000 # 1)))
      (config (example_ctx false)) = Some (2048 # 1)%Q.
Proof.
  split; [reflexivity|].
  destruct (recycle_threshold_never_zero example_resolve "/repo"
              (λ _, LimitNumber (2048 # 1)) stringToBytes_spec
              (example_os 8 (Some (8000 # 1)))
              (example_ctx false) [] ∅) as [Hsome _].
  apply (Hsome (2048 # 1)%Q). reflexivity.
Defined.

Lemma one_task_per_file_witness :
  let c' := (dispatch example_resolve example_groupFilesByEnv (example_ctx false)
               example_specs ["dep.ts"] example_events new_controller).2 in
  units_of example_groupFilesByEnv example_specs !! 1%nat
  = Some {| file := "b.test.ts"; environment := "node"; project := example_project |}
  ∧ ∃ d, submitted c' !! 1%nat = Some d
      ∧ rpc_files d = ["b.test.ts"] ∧ rpc_invalidates d = ["dep.ts"]
      ∧ workerId d = 2%nat.
Proof.
  split; [reflexivity|].
  destruct (one_task_per_file example_resolve example_groupFilesByEnv
              (example_ctx false) example_specs ["dep.ts"] example_events
              new_controller) as (_ & _ & Hunit).
  destruct (Hunit 1%nat
              {| file := "b.test.ts"; environment := "node";
                 project := example_project |} eq_refl)
    as (d & Hd & _ & _ & Hf & _ & Hi & _ & _ & Hw).
  exists d. split; [exact Hd|]. split; [exact Hf|]. split; [exact Hi | exact Hw].
Defined.

Lemma config_shared_by_project_witness :
  let tasks := dispatch_tasks example_resolve example_groupFilesByEnv
                 (example_ctx false) example_specs [] example_events new_controller in
  ∃ t, tasks !! 2%nat = Some t
    ∧ rpc_config (task_data t)
      = {| ser_base := example_config false;
           ser_testNamePattern := Some "$$vitest:/adds/i"%string |}.
Proof.
  intros tasks.
  destruct (lookup_lt_is_Some_2 tasks 2) as [t Ht]; [vm_compute; lia|].
  exists t. split; [exact Ht|].
  destruct (config_shared_by_project example_resolve example_groupFilesByEnv
              (example_ctx false) example_specs [] example_events new_controller)
    as [Hfirst _].
  destruct (Hfirst 2%nat
              {| file := "c.test.ts"; environment := "node";
                 project := example_project |} t eq_refl Ht)
    as (u0 & Hu0 & _ & Hcfg).
  rewrite Hcfg. vm_compute in Hu0. injection Hu0 as <-. reflexivity.
Defined.

Lemma channels_distinct_witness :
  let tasks := dispatch_tasks example_resolve example_groupFilesByEnv
                 (example_ctx false) example_specs [] example_events new_controller in
  ∃ ti tj, tasks !! 0%nat = Some ti ∧ tasks !! 2%nat = Some tj
    ∧ (task_emitter ti = task_emitter tj ↔ 0%nat = 2%nat).
Proof.
  intros tasks.
  destruct (lookup_lt_is_Some_2 tasks 0) as [ti Hi]; [vm_compute; lia|].
  destruct (lookup_lt_is_Some_2 tasks 2) as [tj Hj]; [vm_compute; lia|].
  exists ti, tj. split; [exact Hi|]. split; [exact Hj|].
  apply (channels_distinct example_resolve example_groupFilesByEnv
           (example_ctx false) example_specs [] example_events new_controller
           0 2 ti tj Hi Hj).
Defined.

Lemma dispatch_without_units_witness :
  units_of example_groupFilesByEnv [] = []
  ∧ dispatch example_resolve example_groupFilesByEnv (example_ctx false) [] []
      example_events example_running
    = (Some Resolved, onCancel CancelPendingTasks example_running).
Proof.
  split; [reflexivity|].
  apply (dispatch_without_units example_resolve example_groupFilesByEnv
           (example_ctx false) [] [] example_events example_running).
  reflexivity.
Defined.

Lemma completion_by_settlements_witness :
  (∀ i, (i < 3)%nat →
        first_settlement i example_events
        = first_settlement i example_reordered_events)
  ∧ (dispatch example_resolve example_groupFilesByEnv (example_ctx false)
       example_specs [] example_events new_controller).1
    = (dispatch example_resolve example_groupFilesByEnv (example_ctx false)
         example_specs ["dep.ts"] example_reordered_events example_running).1.
Proof.
  assert (H : ∀ i, (i < 3)%nat →
                first_settlement i example_events
                = first_settlement i example_reordered_events).
  { intros i Hi. destruct i as [|[|[|i]]]; [reflexivity .. | lia]. }
  split; [exact H|].
  apply (completion_by_settlements example_resolve example_groupFilesByEnv
           (example_ctx false) example_specs [] ["dep.ts"] example_events
           example_reordered_events new_controller example_running).
  exact H.
Defined.

Lemma messages_routed_witness :
  let c' := (dispatch example_resolve example_groupFilesByEnv (example_ctx false)
               example_specs [] (take 5 example_events) new_controller).2 in
  first_settlement 2 (take 5 example_events) = None
  ∧ channel_postMessage 2 c' = [RpcReceive]
  ∧ rpc_post 2 c' = [PoolCallback 2].
Proof.
  split; [reflexivity|].
  apply (messages_routed example_resolve example_groupFilesByEnv (example_ctx false)
           example_specs [] (take 5 example_events) new_controller 2).
  - vm_compute. lia.
  - reflexivity.
Defined.

Lemma settled_channel_is_silent_witness :
  let r := dispatch example_resolve example_groupFilesByEnv (example_ctx false)
             example_specs [] example_events new_controller in
  registered_listeners new_controller = 0%nat
  ∧ is_Some r.1
  ∧ channel_postMessage 1 r.2 = [] ∧ rpc_post 1 r.2 = [].
Proof.
  intros r.
  assert (Hsome : is_Some r.1) by (vm_compute; eexists; reflexivity).
  split; [reflexivity|]. split; [exact Hsome|].
  destruct (settled_channel_is_silent example_resolve example_groupFilesByEnv
              (example_ctx false)) as [_ Hall].
  apply (Hall example_specs [] example_events new_controller eq_refl Hsome 1%nat).
Defined.

Lemma aggregate_size_witness :
  let agg := {| errors := [ErrorInstance "boom"];
                aggregate_message := aggregate_text |} in
  (dispatch example_resolve example_groupFilesByEnv (example_ctx false)
     example_specs [] example_events new_controller).1 = Some (Threw agg)
  ∧ (0 < length (errors agg) ≤ 3)%nat.
Proof.
  intros agg.
  assert (H : (dispatch example_resolve example_groupFilesByEnv (example_ctx false)
                 example_specs [] example_events new_controller).1
              = Some (Threw agg)) by (vm_compute; reflexivity).
  split; [exact H|].
  apply (aggregate_size example_resolve example_groupFilesByEnv (example_ctx false)
           example_specs [] example_events new_controller agg H).
Defined.

(** The calls on [ctx.state] for [example_swallowed_events]: the three
    [clearFiles], one timeout cause although the settlement is reported
    twice, and one [cancelFiles]. *)
Example dispatch_state_accounting_run :
  state_calls
    (dispatch example_resolve example_groupFilesByEnv (example_ctx false)
       example_specs [] example_swallowed_events new_controller).2
  = [clearFiles "unit" ["a.test.ts"]; clearFiles "unit" ["b.test.ts"];
     clearFiles "unit" ["c.test.ts"];
     addProcessTimeoutCause "Failed to terminate worker while running a.test.ts.";
     cancelFiles ["b.test.ts"] "/repo" "unit"].
Proof. vm_compute. reflexivity. Qed.
